(** * Annotation converters (convert_to_RTTM/convert.py)

    A shallow embedding of the [Annotation] class of
    [convert_to_RTTM/convert.py]: its constructors [from_records],
    [from_rttm], [from_audacity] and its serializers [_iter_audacity],
    [to_audacity], [write_audacity], [to_rttm], together with the parts
    of the Python runtime and of [pyannote.core.Segment] that they call.

    Text is modelled over 8-bit characters (code points 0..255); Python
    [float] is IEEE binary64, modelled by [spec_float] with precision 53
    and maximal exponent 1024; Python [int] is [Z]. *)

From Stdlib Require Import ZArith NArith List String Ascii Bool Lia.
From Stdlib Require Import Floats.SpecFloat.
From Stdlib Require Import QArith.
Import ListNotations.

Local Open Scope string_scope.
Local Open Scope list_scope.
Local Open Scope Z_scope.

(** ** Python strings *)

Module PyStr.

Definition code (c : ascii) : N := N_of_ascii c.

Definition TAB : ascii := ascii_of_N 9.
Definition LF : ascii := ascii_of_N 10.
Definition CR : ascii := ascii_of_N 13.
Definition SPACE : ascii := ascii_of_N 32.

Definition tab : string := String TAB EmptyString.
Definition nl : string := String LF EmptyString.

(** [str.isspace] on one character: the code points below 256 that
    Unicode classes as whitespace. *)
Definition isspace (c : ascii) : bool :=
  let n := code c in
  ((9 <=? n) && (n <=? 13) || (28 <=? n) && (n <=? 32)
   || (n =? 133) || (n =? 160))%N.

(** [s.rstrip()]: drop the trailing whitespace of [s]. *)
Fixpoint rstrip (s : string) : string :=
  match s with
  | EmptyString => EmptyString
  | String c r =>
      match rstrip r with
      | EmptyString => if isspace c then EmptyString else String c EmptyString
      | r' => String c r'
      end
  end.

(** [s.split(sep)] for a one-character separator: every occurrence of
    [sep] ends a field, so consecutive separators give empty fields and
    the empty string gives one empty field. *)
Fixpoint split (sep : ascii) (s : string) : list string :=
  match s with
  | EmptyString => [EmptyString]
  | String c r =>
      if Ascii.eqb c sep then EmptyString :: split sep r
      else match split sep r with
           | [] => [String c EmptyString]
           | f :: fs => String c f :: fs
           end
  end.

(** ["".join(parts)] *)
Definition join (parts : list string) : string := String.concat "" parts.

(** Membership of a character in a string, as a boolean. *)
Fixpoint mem (c : ascii) (s : string) : bool :=
  match s with
  | EmptyString => false
  | String d r => Ascii.eqb d c || mem c r
  end.

(** [all(p(c) for c in s)] *)
Fixpoint str_forall (p : ascii -> bool) (s : string) : bool :=
  match s with
  | EmptyString => true
  | String c r => p c && str_forall p r
  end.

End PyStr.

(** ** Python numbers *)

Module PyNum.
Import PyStr.

(** [float]: IEEE binary64. *)
Definition prec : Z := 53.
Definition emax : Z := 1024.
Definition float : Type := spec_float.

Definition fadd (x y : float) : float := SFadd prec emax x y.
Definition fsub (x y : float) : float := SFsub prec emax x y.
(** [x > y], [x < y], [x == y] *)
Definition fgt (x y : float) : bool := SFltb y x.
Definition flt (x y : float) : bool := SFltb x y.
Definition feq (x y : float) : bool := SFeqb x y.

(** The values a binary64 can hold: canonical mantissa and exponent. *)
Definition valid (x : float) : bool := valid_binary prec emax x.

(** Exact value of a float that denotes a number, in lowest terms. *)
Definition to_Q (x : float) : option Q :=
  match x with
  | S754_zero _ => Some 0%Q
  | S754_finite s m e =>
      let n := if s then Zneg m else Zpos m in
      Some (Qred (if 0 <=? e then inject_Z (n * 2 ^ e)
                  else Qmake n (Z.to_pos (2 ^ (- e)))))
  | _ => None
  end.

(** *** Reading numbers: [float(s)] and [int(s)] *)

Definition is_digit (c : ascii) : bool :=
  ((48 <=? code c) && (code c <=? 57))%N.

Definition digit_val (c : ascii) : Z := Z.of_N (code c) - 48.

(** C [isspace] in the C locale, which the number parsers use once the
    text has been brought to ASCII. *)
Definition c_isspace (c : ascii) : bool :=
  let n := code c in ((9 <=? n) && (n <=? 13) || (n =? 32))%N.

Fixpoint all_ascii (s : string) : bool :=
  match s with
  | EmptyString => true
  | String c r => (code c <? 128)%N && all_ascii r
  end.

(** What the number parsers do to a text that is not pure ASCII:
    whitespace becomes a space, any other character above 126 becomes
    ["?"] and ends the text (decimal digits above 126 do not exist among
    8-bit characters). *)
Fixpoint transform_aux (s : string) : string :=
  match s with
  | EmptyString => EmptyString
  | String c r =>
      if (code c <? 127)%N then String c (transform_aux r)
      else if isspace c then String SPACE (transform_aux r)
      else "?"
  end.

Definition transform_decimal_and_space (s : string) : string :=
  if all_ascii s then s else transform_aux s.

(** Underscores may only stand between two digits; they are removed. *)
Fixpoint remove_underscores (prev : ascii) (s : string) : option string :=
  match s with
  | EmptyString => if Ascii.eqb prev "_" then None else Some EmptyString
  | String c r =>
      if Ascii.eqb c "_" then
        if is_digit prev then remove_underscores c r else None
      else if Ascii.eqb prev "_" && negb (is_digit c) then None
      else option_map (String c) (remove_underscores c r)
  end.

Definition with_underscores (s : string) : option string :=
  if mem "_" s then remove_underscores zero s else Some s.

Fixpoint c_lstrip (s : string) : string :=
  match s with
  | EmptyString => EmptyString
  | String c r => if c_isspace c then c_lstrip r else s
  end.

Fixpoint c_rstrip (s : string) : string :=
  match s with
  | EmptyString => EmptyString
  | String c r =>
      match c_rstrip r with
      | EmptyString => if c_isspace c then EmptyString else String c EmptyString
      | r' => String c r'
      end
  end.

(** Leading decimal digits of [s], most significant first, and the rest. *)
Fixpoint span_digits (s : string) : list Z * string :=
  match s with
  | EmptyString => ([], EmptyString)
  | String c r =>
      if is_digit c then
        let '(ds, rest) := span_digits r in (digit_val c :: ds, rest)
      else ([], s)
  end.

Definition digits_value (ds : list Z) : Z :=
  fold_left (fun acc d => 10 * acc + d) ds 0.

Definition read_sign (s : string) : bool * string :=
  match s with
  | String "-" r => (true, r)
  | String "+" r => (false, r)
  | _ => (false, s)
  end.

(** The binary64 nearest to [m * 10^e] (ties to even): the correctly
    rounded quotient of two integers. *)
Definition of_decimal (neg : bool) (m e : Z) : float :=
  match m with
  | Zpos p =>
      let num := if 0 <=? e then Z.to_pos (Zpos p * 10 ^ e) else p in
      let den := if 0 <=? e then 1%positive else Z.to_pos (10 ^ (- e)) in
      SFdiv prec emax (S754_finite neg num 0) (S754_finite false den 0)
  | _ => S754_zero neg
  end.

(** Exponent part: ["e"] or ["E"], an optional sign and at least one
    digit; anything else is left unread. *)
Definition read_exponent (s : string) : Z * string :=
  match s with
  | String c r =>
      if Ascii.eqb c "e" || Ascii.eqb c "E" then
        let '(neg, r1) := read_sign r in
        match span_digits r1 with
        | ([], _) => (0, s)
        | (ds, r2) => ((if neg then - digits_value ds else digits_value ds), r2)
        end
      else (0, s)
  | EmptyString => (0, s)
  end.

(** A decimal literal: digits with an optional point, then an optional
    exponent; the whole text must be read. *)
Definition read_decimal (neg : bool) (s : string) : option float :=
  let '(ip, s1) := span_digits s in
  let '(fp, s2) :=
    match s1 with
    | String "." r => span_digits r
    | _ => ([], s1)
    end in
  match ip ++ fp with
  | [] => None
  | ds =>
      let '(e, s3) := read_exponent s2 in
      match s3 with
      | EmptyString =>
          Some (of_decimal neg (digits_value ds) (e - Z.of_nat (List.length fp)))
      | _ => None
      end
  end.

Definition lower (c : ascii) : ascii :=
  if ((65 <=? code c) && (code c <=? 90))%N
  then ascii_of_N (code c + 32) else c.

Fixpoint lower_string (s : string) : string :=
  match s with
  | EmptyString => EmptyString
  | String c r => String (lower c) (lower_string r)
  end.

(** ["inf"], ["infinity"] and ["nan"], in any letter case. *)
Definition read_inf_or_nan (neg : bool) (s : string) : option float :=
  let l := lower_string s in
  if String.eqb l "inf" || String.eqb l "infinity" then Some (S754_infinity neg)
  else if String.eqb l "nan" then Some S754_nan
  else None.

(** [float(s)] for a string [s]; [None] stands for [ValueError]. *)
Definition float_of_string (s : string) : option float :=
  match with_underscores (transform_decimal_and_space s) with
  | None => None
  | Some t =>
      let u := c_rstrip (c_lstrip t) in
      let '(neg, v) := read_sign u in
      match read_decimal neg v with
      | Some x => Some x
      | None => read_inf_or_nan neg v
      end
  end.

(** Digits of an integer literal: a digit, then digits each optionally
    preceded by one underscore. *)
Fixpoint int_digits (after_digit : bool) (s : string) : option (list Z * string) :=
  match s with
  | EmptyString => Some ([], s)
  | String c r =>
      if is_digit c then
        match int_digits true r with
        | Some (ds, rest) => Some (digit_val c :: ds, rest)
        | None => None
        end
      else if Ascii.eqb c "_" then
        if after_digit then
          match r with
          | String d _ => if is_digit d then int_digits false r else None
          | EmptyString => None
          end
        else None
      else Some ([], s)
  end.

(** The interpreter's default bound on the number of digits [int]
    accepts ([sys.int_info.default_max_str_digits]). *)
Definition max_str_digits : nat := 4300.

(** [int(s)] for a string [s] (base 10); [None] stands for [ValueError]. *)
Definition int_of_string (s : string) : option Z :=
  let t := c_lstrip (transform_decimal_and_space s) in
  let '(neg, u) := read_sign t in
  match int_digits false u with
  | Some (d :: ds, rest) =>
      match c_lstrip rest with
      | EmptyString =>
          if Nat.ltb max_str_digits (List.length (d :: ds)) then None
          else let v := digits_value (d :: ds) in Some (if neg then - v else v)
      | _ => None
      end
  | _ => None
  end.

(** *** Writing numbers: [format(x, ".3f")] *)

(** [a / 2^k] rounded to the nearest integer, ties to even. *)
Definition round_half_even_shift (a k : Z) : Z :=
  let q := a / 2 ^ k in
  let r := a mod 2 ^ k in
  match 2 * r ?= 2 ^ k with
  | Lt => q
  | Gt => q + 1
  | Eq => if Z.even q then q else q + 1
  end.

(** [|x| * 1000] rounded to the nearest integer, for [|x| = m * 2^e]. *)
Definition thousandths (m : positive) (e : Z) : Z :=
  if 0 <=? e then 1000 * Zpos m * 2 ^ e
  else round_half_even_shift (1000 * Zpos m) (- e).

Definition digit_char (d : Z) : ascii := ascii_of_N (Z.to_N (48 + d)).

(** Decimal digits of a natural number, most significant first. *)
Fixpoint digits_fuel (fuel : nat) (n : Z) (acc : string) : string :=
  match fuel with
  | O => acc
  | S f =>
      let acc' := String (digit_char (n mod 10)) acc in
      if n <? 10 then acc' else digits_fuel f (n / 10) acc'
  end.

Definition decimal (n : Z) : string :=
  digits_fuel (S (Z.to_nat (Z.log2 n))) n EmptyString.

Definition three_digits (n : Z) : string :=
  String (digit_char (n / 100 mod 10))
    (String (digit_char (n / 10 mod 10))
       (String (digit_char (n mod 10)) EmptyString)).

Definition fixed3 (n : Z) : string :=
  decimal (n / 1000) ++ "." ++ three_digits (n mod 1000).

Definition format_3f (x : float) : string :=
  match x with
  | S754_nan => "nan"
  | S754_infinity s => if s then "-inf" else "inf"
  | S754_zero s => if s then "-0.000" else "0.000"
  | S754_finite s m e =>
      (if s then "-" else "") ++ fixed3 (thousandths m e)
  end.

(** Fixed-point text with exactly three decimals: an optional minus
    sign, at least one digit, a point, three digits. *)
Definition three_decimals (s : string) : bool :=
  let body :=
    match s with
    | String c r => if Ascii.eqb c "-" then r else s
    | EmptyString => s
    end in
  match split "." body with
  | [ip; fp] =>
      negb (String.eqb ip "") && str_forall is_digit ip
      && Nat.eqb (String.length fp) 3 && str_forall is_digit fp
  | _ => false
  end.

End PyNum.

(** ** pyannote.core.Segment

    [Segment] is imported from the library [pyannote.core]
    ([pyannote/core/segment.py]); the converters build segments and read
    their [start] and [duration].  The library defines

      SEGMENT_PRECISION = 1e-6
      def __bool__(self):
          return bool((self.end - self.start) > SEGMENT_PRECISION)
      @property
      def duration(self):
          return self.end - self.start if self else 0.

    and stores [start] and [end] as they are given (no rounding unless
    [Segment.set_precision] was called, which the converters never do). *)

Module Segment.
Import PyNum.

Record t : Type := Segment { start : float; end_ : float }.

(** The binary64 nearest to [1e-6]. *)
Definition SEGMENT_PRECISION : float :=
  S754_finite false 4722366482869645 (-72).

Definition __bool__ (self : t) : bool :=
  fgt (fsub (end_ self) (start self)) SEGMENT_PRECISION.

Definition duration (self : t) : float :=
  if __bool__ self then fsub (end_ self) (start self) else S754_zero false.

End Segment.

(** ** Exceptions and the two effects of the converters *)

(** The exceptions the converters can raise: [IndexError] from indexing a
    token list, [ValueError] from [float], [int] and tuple unpacking,
    [OSError] from [open]. *)
Inductive exn : Type := IndexError | ValueError | OSError.

Inductive result (A : Type) : Type :=
| Ok (a : A)
| Raise (e : exn).

Arguments Ok {A} a.
Arguments Raise {A} e.

Definition result_bind {A B : Type} (r : result A) (k : A -> result B) : result B :=
  match r with
  | Ok a => k a
  | Raise e => Raise e
  end.

Declare Scope result_scope.
Delimit Scope result_scope with result.
Notation "x <- r ;; k" := (result_bind r (fun x => k))
  (at level 61, r at next level, right associativity) : result_scope.

(** A parse failure is an [IndexError] or a [ValueError]. *)
Definition parse_error (e : exn) : bool :=
  match e with
  | IndexError | ValueError => true
  | OSError => false
  end.

Definition raises_parse_error {A : Type} (r : result A) : Prop :=
  exists e, r = Raise e /\ parse_error e = true.

(** One record of an annotation: the tuple [(segment, track, label)]. *)
Definition record : Type := Segment.t * Z * string.

(** ** The Annotation class *)

Record Annotation : Type := mkAnnotation {
  segment_list : list record;
  uri : option string;
  modality : option string
}.

(** Readable files: a path leads to the decoded text of the file, or to
    nothing when the file cannot be opened. *)
Definition filesystem : Type := string -> option string.

(** The objects a serializer call can reach: the annotation it is called
    on and the output file, seen as the chunks written to it so far. *)
Record world : Type := mkWorld {
  self : Annotation;
  file : list string
}.

Definition M (A : Type) : Type := world -> A * world.

Definition ret {A : Type} (a : A) : M A := fun w => (a, w).

Definition bind {A B : Type} (m : M A) (k : A -> M B) : M B :=
  fun w => let '(a, w') := m w in k a w'.

Declare Scope world_scope.
Delimit Scope world_scope with world.
Notation "x <- m ;; k" := (bind m (fun x => k))
  (at level 61, m at next level, right associativity) : world_scope.
Notation "m ;; k" := (bind m (fun _ => k))
  (at level 61, right associativity) : world_scope.

Definition get_self : M Annotation := fun w => (self w, w).

(** [file.write(line)] *)
Definition file_write (line : string) : M unit :=
  fun w => (tt, mkWorld (self w) (file w ++ [line])).

(** [for x in xs: body] *)
Fixpoint for_each {A : Type} (xs : list A) (body : A -> M unit) : M unit :=
  match xs with
  | [] => ret tt
  | x :: rest => (body x ;; for_each rest body)%world
  end.

Definition exec {A : Type} (m : M A) (w : world) : world := snd (m w).
Definition eval {A : Type} (m : M A) (w : world) : A := fst (m w).

Module Ann.
Import PyStr PyNum.

(** [str(x)] for an optional string: [None] prints as ["None"]. *)
Definition str_optional (x : option string) : string :=
  match x with
  | Some s => s
  | None => "None"
  end.

(** [line[i]] *)
Definition getitem (line : list string) (i : nat) : result string :=
  match nth_error line i with
  | Some tok => Ok tok
  | None => Raise IndexError
  end.

Definition py_float (s : string) : result float :=
  match float_of_string s with
  | Some x => Ok x
  | None => Raise ValueError
  end.

Definition py_int (s : string) : result Z :=
  match int_of_string s with
  | Some n => Ok n
  | None => Raise ValueError
  end.

Definition from_records (segment_list : list record)
    (uri modality : option string) : Annotation :=
  mkAnnotation segment_list uri modality.

(** The tuple appended for one line of [from_rttm]; the sub-expressions
    are evaluated left to right. *)
Definition rttm_record (line : string) : result record :=
  (let line := split " " (rstrip line) in
   t <- getitem line 3 ;;
   start <- py_float t ;;
   t <- getitem line 3 ;;
   a <- py_float t ;;
   t <- getitem line 4 ;;
   b <- py_float t ;;
   t <- getitem line 2 ;;
   track <- py_int t ;;
   label <- getitem line 7 ;;
   Ok (Segment.Segment start (fadd a b), track, label))%result.

(** The loop shared by both readers: [for line in lines:
    segment_list.append(<tuple of line>)]; the first line that raises
    ends the call. *)
Fixpoint append_records (parse : string -> result record)
    (lines : list string) (segment_list : list record)
    : result (list record) :=
  match lines with
  | [] => Ok segment_list
  | line :: rest =>
      (r <- parse line ;;
       append_records parse rest (segment_list ++ [r]))%result
  end.

(** [rttm_file] is the sequence of lines the text source yields. *)
Definition from_rttm (rttm_file : list string) (uri modality : option string)
    : result Annotation :=
  (segment_list <- append_records rttm_record rttm_file [] ;;
   Ok (from_records segment_list uri modality))%result.

Definition audacity_line (r : record) : string :=
  let '(segment, _, label) := r in
  format_3f (Segment.start segment) ++ tab
    ++ format_3f (Segment.end_ segment) ++ tab ++ label ++ nl.

(** The generator [_iter_audacity], as the finite sequence of the lines
    it yields.  It only reads [self], and its consumers never write
    [self], so producing the lines ahead of their consumption yields
    the same lines. *)
Definition _iter_audacity : M (list string) :=
  (self <- get_self ;;
   ret (map audacity_line (segment_list self)))%world.

Definition to_audacity : M string :=
  (lines <- _iter_audacity ;;
   ret (join lines))%world.

Definition write_audacity : M unit :=
  (lines <- _iter_audacity ;;
   for_each lines file_write)%world.

Definition rttm_line (uri : option string) (r : record) : string :=
  let '(segment, _, label) := r in
  "SPEAKER " ++ str_optional uri ++ " 1 "
    ++ format_3f (Segment.start segment) ++ " "
    ++ format_3f (Segment.duration segment)
    ++ " <NA> <NA> " ++ label ++ " <NA>" ++ nl.

Definition to_rttm : M unit :=
  (self <- get_self ;;
   for_each (segment_list self) (fun r =>
     self <- get_self ;;
     file_write (rttm_line (uri self) r)))%world.

(** Text mode with universal newlines: ["\r\n"] and ["\r"] are read as
    ["\n"]. *)
Fixpoint universal_newlines (s : string) : string :=
  match s with
  | EmptyString => EmptyString
  | String c r =>
      if Ascii.eqb c CR then
        match r with
        | String d r' =>
            if Ascii.eqb d LF then String LF (universal_newlines r')
            else String LF (universal_newlines r)
        | EmptyString => String LF EmptyString
        end
      else String c (universal_newlines r)
  end.

(** Iterating a text file: each line keeps its ["\n"]; a last line without
    one is yielded as it is. *)
Fixpoint readlines (s : string) : list string :=
  match s with
  | EmptyString => []
  | String c r =>
      if Ascii.eqb c LF then nl :: readlines r
      else match readlines r with
           | [] => [String c EmptyString]
           | l :: ls => String c l :: ls
           end
  end.

(** [open(path, "r")] followed by iteration over the file. *)
Definition open_lines (fs : filesystem) (path : string) : result (list string) :=
  match fs path with
  | Some text => Ok (readlines (universal_newlines text))
  | None => Raise OSError
  end.

(** The tuple appended for one line of [from_audacity]: unpacking into
    three names raises [ValueError] for any other number of fields. *)
Definition audacity_record (line : string) : result record :=
  match split TAB (rstrip line) with
  | [start; end_; label] =>
      (s <- py_float start ;;
       e <- py_float end_ ;;
       Ok (Segment.Segment s e, 1, label))%result
  | _ => Raise ValueError
  end.

Definition from_audacity (fs : filesystem) (audacity_file : string)
    (uri modality : option string) : result Annotation :=
  (lines <- open_lines fs audacity_file ;;
   segment_list <- append_records audacity_record lines [] ;;
   Ok (from_records segment_list uri modality))%result.

End Ann.

(** ** Conditions on input lines *)

Module Line.
Import PyStr PyNum.

Definition is_some {A : Type} (o : option A) : bool :=
  match o with
  | Some _ => true
  | None => false
  end.

(** The tokens [from_rttm] works on: the line without its trailing
    whitespace, cut at every space. *)
Definition rttm_tokens (line : string) : list string :=
  split " " (rstrip line).

Definition token (tokens : list string) (i : nat) : string :=
  nth i tokens EmptyString.

(** At least 8 tokens, of which token 2 reads as an integer and tokens
    3 and 4 read as floats. *)
Definition rttm_line_ok (line : string) : bool :=
  let tokens := rttm_tokens line in
  Nat.leb 8 (List.length tokens)
  && is_some (int_of_string (token tokens 2))
  && is_some (float_of_string (token tokens 3))
  && is_some (float_of_string (token tokens 4)).

(** The fields [from_audacity] works on: the line without its trailing
    whitespace, cut at every tab. *)
Definition audacity_fields (line : string) : list string :=
  split TAB (rstrip line).

(** Exactly 3 fields, of which the first two read as floats. *)
Definition audacity_line_ok (line : string) : bool :=
  match audacity_fields line with
  | [start; end_; _] =>
      is_some (float_of_string start) && is_some (float_of_string end_)
  | _ => false
  end.

(** A field that is already in [.3f] format: it reads as a float whose
    [.3f] text is the field itself. *)
Definition formatted_3f (field : string) : bool :=
  match float_of_string field with
  | Some x => String.eqb (format_3f x) field
  | None => false
  end.

(** A label that survives reading: not empty, without tab or line
    break, and not ending in whitespace. *)
Definition label_ok (label : string) : bool :=
  negb (String.eqb label "") && String.eqb (rstrip label) label
  && negb (mem TAB label) && negb (mem LF label) && negb (mem CR label).

Definition row : Type := string * string * string.

Definition row_ok (r : row) : bool :=
  let '(start, end_, label) := r in
  formatted_3f start && formatted_3f end_ && label_ok label.

(** One line of a marker-timeline text. *)
Definition marker_line (r : row) : string :=
  let '(start, end_, label) := r in
  start ++ tab ++ end_ ++ tab ++ label ++ nl.

(** The characters [.3f] can produce. *)
Definition numeric_char (c : ascii) : bool :=
  is_digit c || mem c "-.infa".

(** A digit string of two or more characters that starts with a zero. *)
Definition leading_zero (s : string) : bool :=
  match s with
  | String c (String _ _) => Ascii.eqb c "0"
  | _ => false
  end.

(** A field in canonical fixed-point form, as a condition on its
    characters alone: an optional minus sign, an integer part of 1 to 12
    digits with no leading zero other than the single digit 0, a point,
    and exactly three digits. *)
Definition canonical_3f (field : string) : bool :=
  let body :=
    match field with
    | String c r => if Ascii.eqb c "-" then r else field
    | EmptyString => field
    end in
  match split "." body with
  | [ip; fp] =>
      str_forall is_digit ip && str_forall is_digit fp
      && Nat.leb 1 (String.length ip) && Nat.leb (String.length ip) 12
      && Nat.eqb (String.length fp) 3
      && negb (leading_zero ip)
  | _ => false
  end.

(** A row whose numeric fields are canonical and whose label survives
    reading. *)
Definition row_canonical (r : row) : bool :=
  let '(start, end_, label) := r in
  canonical_3f start && canonical_3f end_ && label_ok label.

End Line.

(** ** The spec's reading of a line

    The notions the specification uses to describe the input lines, kept
    apart from the readers above so that the two can be compared. *)

Module Spec.
Import PyStr.

(** The whitespace-separated tokens of a line: maximal runs of
    characters that are not whitespace ([line.split()]). *)
Fixpoint whitespace_tokens (s : string) : list string :=
  match s with
  | EmptyString => []
  | String c r =>
      if isspace c then whitespace_tokens r
      else match r with
           | EmptyString => [String c EmptyString]
           | String d _ =>
               if isspace d then String c EmptyString :: whitespace_tokens r
               else match whitespace_tokens r with
                    | [] => [String c EmptyString]
                    | t :: ts => String c t :: ts
                    end
           end
  end.

(** The RTTM line as the specification words it: the duration field is
    [end - start], computed when the line is written. *)
Definition stated_rttm_line (uri : option string) (r : record) : string :=
  let '(segment, _, label) := r in
  "SPEAKER " ++ match uri with Some u => u | None => "None" end ++ " 1 "
    ++ PyNum.format_3f (Segment.start segment) ++ " "
    ++ PyNum.format_3f (PyNum.fsub (Segment.end_ segment) (Segment.start segment))
    ++ " <NA> <NA> " ++ label ++ " <NA>" ++ nl.

(** A line without its line terminator. *)
Fixpoint chomp (s : string) : string :=
  match s with
  | EmptyString => EmptyString
  | String c r =>
      match r with
      | EmptyString => if Ascii.eqb c LF then EmptyString else s
      | _ => String c (chomp r)
      end
  end.

(** The tab-separated fields of a line. *)
Definition tab_fields (line : string) : list string :=
  split TAB (chomp line).

End Spec.

(** ** Sample data *)

Import PyStr PyNum.

(** Replacing the track ids of a record list. *)
Definition retrack (f : Z -> Z) (rs : list record) : list record :=
  map (fun '(segment, track, label) => (segment, f track, label)) rs.

(** The RTTM scenario of the specification. *)
Definition scenario_rttm_line : string :=
  "SPEAKER file1 1 10.000 2.500 <NA> <NA> spk1 <NA>".

(** The marker-timeline scenario of the specification. *)
Definition scenario_marker_text : string :=
  "1.000" ++ tab ++ "2.000" ++ tab ++ "spkA" ++ nl.

(** A file whose only line has two tab-separated fields. *)
Definition two_field_text : string := "1.000" ++ tab ++ "2.000" ++ nl.

(** The floats 1.0, 1.5 and 2.0. *)
Definition float_1 : float := S754_finite false 4503599627370496 (-52).
Definition float_1_5 : float := S754_finite false 6755399441055744 (-52).
Definition float_2 : float := S754_finite false 4503599627370496 (-51).

(** ** The conversion script

    The statements at the end of [convert.py], run when the module is
    loaded: the marker-timeline file is read, then the RTTM file is opened
    for writing and written.  A file opened with mode ["w"] is created or
    emptied when it is opened and holds what was written when the [with]
    block closes it; [open] raises [OSError] on a file that cannot be
    written.  Written text is stored as it is (the platform line separator
    is the newline character). *)

Module Script.

Definition audacity_file_path : string := "Labels_obama_zach.txt".
Definition rttm_file_path : string := "output_file.rttm".

(** The files after [path] has been written with [text]. *)
Definition write_file (fs : filesystem) (path text : string) : filesystem :=
  fun p => if String.eqb p path then Some text else fs p.

(** The files after the script has run, with the annotation it bound or
    the exception that ended it. *)
Definition main (writable : string -> bool) (fs : filesystem)
  : filesystem * result Annotation :=
  match Ann.from_audacity fs audacity_file_path None None with
  | Raise e => (fs, Raise e)
  | Ok annotation =>
      if writable rttm_file_path then
        let rttm_file := file (exec Ann.to_rttm (mkWorld annotation [])) in
        (write_file fs rttm_file_path (join rttm_file), Ok annotation)
      else (fs, Raise OSError)
  end.

End Script.

(** ** Reading a file back *)

Module Reread.

(** The values of the characters of a digit string. *)
Fixpoint digit_vals (s : string) : list Z :=
  match s with
  | EmptyString => []
  | String c r => PyNum.digit_val c :: digit_vals r
  end.

(** The number a digit string stands for. *)
Definition digits_number (s : string) : Z := PyNum.digits_value (digit_vals s).

(** What [float] returns on the [.3f] text of a float: infinities, nan
    and zeros come back as they are, a finite value comes back as the
    binary64 nearest to its thousandths divided by 1000. *)
Definition read_back (x : PyNum.float) : PyNum.float :=
  match x with
  | S754_finite s m e => PyNum.of_decimal s (PyNum.thousandths m e) (-3)
  | _ => x
  end.

(** The lines iterating a text file yields, for a file holding [text]. *)
Definition lines_of (text : string) : list string :=
  Ann.readlines (Ann.universal_newlines text).

(** The first space-separated part of a label. *)
Definition first_word (label : string) : string :=
  hd EmptyString (split " " label).

(** A text that holds no line break. *)
Definition one_line (s : string) : bool :=
  negb (mem LF s) && negb (mem CR s).

(** The record [from_rttm] builds from the line [to_rttm] wrote for [r]. *)
Definition reread_rttm (r : record) : record :=
  let '(segment, _, label) := r in
  let start := read_back (Segment.start segment) in
  (Segment.Segment start (PyNum.fadd start (read_back (Segment.duration segment))),
   1, first_word label).

(** The record [from_audacity] builds from the line [_iter_audacity]
    yielded for [r]. *)
Definition reread_audacity (r : record) : record :=
  let '(segment, _, label) := r in
  (Segment.Segment (read_back (Segment.start segment))
                   (read_back (Segment.end_ segment)),
   1, label).

End Reread.

(** * Properties *)

(** ** Sample evaluations of the runtime model *)

Example rstrip_sample : rstrip ("a b " ++ tab ++ nl) = "a b".
Proof. reflexivity. Qed.

Example split_sample : split " " "a  b " = ["a"; ""; "b"; ""].
Proof. reflexivity. Qed.

Example split_empty_sample : split " " "" = [""].
Proof. reflexivity. Qed.

Example whitespace_tokens_sample :
  Spec.whitespace_tokens ("  a " ++ tab ++ "bc" ++ nl) = ["a"; "bc"].
Proof. reflexivity. Qed.

Example float_of_string_samples :
  map float_of_string ["10.000"; "0.1"; "1e-6"; " 1_000.5 "; "-0.0"; "1e400"; "INF"; "nan"]
  = [Some (S754_finite false 5629499534213120 (-49));
     Some (S754_finite false 7205759403792794 (-56));
     Some Segment.SEGMENT_PRECISION;
     Some (S754_finite false 8800491068719104 (-43));
     Some (S754_zero true);
     Some (S754_infinity false);
     Some (S754_infinity false);
     Some S754_nan].
Proof. vm_compute. reflexivity. Qed.

Example float_of_string_rejects :
  map float_of_string [""; " "; "."; "e5"; "1e"; "1__0"; "_1"; "1_"; "1 2"; "0x10"; "abc"]
  = repeat None 11.
Proof. vm_compute. reflexivity. Qed.

Example int_of_string_samples :
  map int_of_string ["1"; " -12 "; "+1_000"; "007"; ""; "1.0"; "1__0"; "1_"; "1 2"]
  = [Some 1; Some (-12); Some 1000; Some 7; None; None; None; None; None].
Proof. vm_compute. reflexivity. Qed.

Example format_3f_samples :
  map (fun s => option_map format_3f (float_of_string s))
      ["0.0625"; "0.1875"; "2.5"; "-1.0"; "1e22"; "1e-7"; "-0.0004"; "0.9995"; "inf"; "nan"]
  = map Some ["0.062"; "0.188"; "2.500"; "-1.000"; "10000000000000000000000.000";
              "0.000"; "-0.000"; "1.000"; "inf"; "nan"].
Proof. vm_compute. reflexivity. Qed.

Example duration_samples :
  map (fun '(s, e) =>
         option_map format_3f
           (match float_of_string s, float_of_string e with
            | Some x, Some y => Some (Segment.duration (Segment.Segment x y))
            | _, _ => None
            end))
      [("10.0", "12.5"); ("1.0", "1.0"); ("0.0", "0.000002"); ("0.0", "0.0000005");
       ("2.0", "1.0"); ("inf", "inf")]
  = map Some ["2.500"; "0.000"; "0.000"; "0.000"; "0.000"; "0.000"].
Proof. vm_compute. reflexivity. Qed.

(** ** C1: the RTTM scenario *)


(** C1.  Reading the single line
    [SPEAKER file1 1 10.000 2.500 <NA> <NA> spk1 <NA>] with [from_rttm]
    gives exactly one record, whose segment starts at 10 and ends at 12.5
    (start plus duration), whose track is the integer 1 and whose label is
    ["spk1"]; [to_rttm] on that annotation with uri ["file1"] writes
    exactly the original line followed by a newline. *)
Theorem C1_rttm_scenario :
  exists segment,
    Ann.from_rttm [scenario_rttm_line] (Some "file1") None
      = Ok (mkAnnotation [(segment, 1, "spk1")] (Some "file1") None)
    /\ to_Q (Segment.start segment) = Some (10 # 1)%Q
    /\ to_Q (Segment.end_ segment) = Some (25 # 2)%Q
    /\ file (exec Ann.to_rttm
               (mkWorld (mkAnnotation [(segment, 1, "spk1")] (Some "file1") None) []))
       = [(scenario_rttm_line ++ nl)%string].
Proof.
  eexists. split; [vm_compute; reflexivity|].
  repeat split; vm_compute; reflexivity.
Qed.

(** ** Running the serializers *)

Section Serializers.

Lemma for_each_file_write (lines : list string) (w : world) :
  for_each lines file_write w = (tt, mkWorld (self w) (file w ++ lines)).
Proof.
  revert w. induction lines as [|l ls IH]; intros w.
  - cbn. rewrite app_nil_r. now destruct w.
  - cbn. unfold bind. cbn. rewrite IH. cbn.
    now rewrite <- app_assoc.
Qed.

Lemma for_each_rttm (rs : list record) (w : world) :
  for_each rs (fun r => (self <- get_self ;;
                         file_write (Ann.rttm_line (uri self) r))%world) w
  = (tt, mkWorld (self w) (file w ++ map (Ann.rttm_line (uri (self w))) rs)).
Proof.
  revert w. induction rs as [|r rs IH]; intros w.
  - cbn. rewrite app_nil_r. now destruct w.
  - cbn. unfold bind. cbn. rewrite IH. cbn.
    now rewrite <- app_assoc.
Qed.

Lemma to_rttm_run (w : world) :
  Ann.to_rttm w
  = (tt, mkWorld (self w)
           (file w ++ map (Ann.rttm_line (uri (self w))) (segment_list (self w)))).
Proof.
  unfold Ann.to_rttm, bind, get_self. apply for_each_rttm.
Qed.

Lemma write_audacity_run (w : world) :
  Ann.write_audacity w
  = (tt, mkWorld (self w)
           (file w ++ map Ann.audacity_line (segment_list (self w)))).
Proof.
  unfold Ann.write_audacity, Ann._iter_audacity, bind, get_self, ret.
  apply for_each_file_write.
Qed.

Lemma to_audacity_run (w : world) :
  Ann.to_audacity w
  = (join (map Ann.audacity_line (segment_list (self w))), w).
Proof. reflexivity. Qed.

End Serializers.



(** ** C6: [to_audacity] and [write_audacity] agree *)


(** ** C7: order preservation *)


(** ** C9: serialization leaves the annotation as it was *)

(** C9.  For every annotation and file, [to_rttm], [to_audacity] and
    [write_audacity] leave the annotation unchanged (its record sequence,
    uri and modality are the same after the call as before), and
    serializing the same annotation again produces the same output: a
    second [to_audacity] returns the same string, and a second [to_rttm]
    or [write_audacity] writes the same lines once more. *)
Theorem C9_serialization_frame :
  forall (w : world),
    self (exec Ann.to_rttm w) = self w
    /\ self (exec Ann.to_audacity w) = self w
    /\ self (exec Ann.write_audacity w) = self w
    /\ file (exec Ann.to_audacity w) = file w
    /\ eval Ann.to_audacity (exec Ann.to_audacity w) = eval Ann.to_audacity w
    /\ eval Ann.to_audacity (exec Ann.to_rttm w) = eval Ann.to_audacity w
    /\ eval Ann.to_audacity (exec Ann.write_audacity w) = eval Ann.to_audacity w
    /\ (exists lines,
          file (exec Ann.to_rttm w) = file w ++ lines
          /\ file (exec Ann.to_rttm (exec Ann.to_rttm w)) = (file w ++ lines) ++ lines)
    /\ (exists lines,
          file (exec Ann.write_audacity w) = file w ++ lines
          /\ file (exec Ann.write_audacity (exec Ann.write_audacity w))
             = (file w ++ lines) ++ lines).
Proof.
  intros w. unfold exec, eval.
  rewrite !to_rttm_run, !write_audacity_run, !to_audacity_run. cbn.
  repeat split.
  - eexists. split; reflexivity.
  - eexists. split; reflexivity.
Qed.

(** ** Arithmetic of binary64 differences *)

Section FloatFacts.

Lemma feq_finite s1 m1 e1 s2 m2 e2 :
  feq (S754_finite s1 m1 e1) (S754_finite s2 m2 e2) = true ->
  s1 = s2 /\ m1 = m2 /\ e1 = e2.
Proof.
  unfold feq, SFeqb. cbn.
  destruct s1, s2; try discriminate;
    destruct (Z.compare_spec e1 e2) as [He|He|He]; try discriminate;
    fold (Pos.compare m1 m2);
    destruct (Pos.compare_spec m1 m2) as [Hm|Hm|Hm]; try discriminate;
    intros _; auto.
Qed.

Lemma shl_align_same m e : shl_align m e e = (m, e).
Proof. unfold shl_align. now rewrite Z.sub_diag. Qed.

Lemma fsub_self_finite s m e :
  fsub (S754_finite s m e) (S754_finite s m e) = S754_zero false.
Proof.
  unfold fsub, SFsub. rewrite Z.min_id, shl_align_same. cbn [fst].
  now rewrite Z.sub_diag.
Qed.

(** A segment whose ends compare equal has duration [0.0]. *)
Lemma duration_of_equal_ends (x y : float) :
  feq x y = true -> Segment.duration (Segment.Segment x y) = S754_zero false.
Proof.
  intros H. unfold Segment.duration, Segment.__bool__. cbn [Segment.start Segment.end_].
  destruct x as [sx|sx| |sx mx ex], y as [sy|sy| |sy my ey];
    try discriminate H;
    try (destruct sx; discriminate H);
    try (destruct sy; discriminate H).
  - now destruct sx, sy.
  - destruct sx, sy; try discriminate H; reflexivity.
  - apply feq_finite in H. destruct H as (-> & -> & ->).
    now rewrite fsub_self_finite.
Qed.

Lemma digits2_pos_bounds (m : positive) :
  2 ^ (Zpos (digits2_pos m) - 1) <= Zpos m < 2 ^ Zpos (digits2_pos m).
Proof.
  induction m as [p IH|p IH|]; cbn [digits2_pos].
  - rewrite Pos2Z.inj_succ, Z.pow_succ_r by lia.
    replace (Z.succ (Zpos (digits2_pos p)) - 1) with (Z.succ (Zpos (digits2_pos p) - 1)) by lia.
    rewrite Z.pow_succ_r by lia. lia.
  - rewrite Pos2Z.inj_succ, Z.pow_succ_r by lia.
    replace (Z.succ (Zpos (digits2_pos p)) - 1) with (Z.succ (Zpos (digits2_pos p) - 1)) by lia.
    rewrite Z.pow_succ_r by lia. lia.
  - cbn. lia.
Qed.

Lemma iter_xO_value (m d : positive) :
  Zpos (Pos.iter xO m d) = Zpos m * 2 ^ Zpos d.
Proof.
  induction d as [|d IH] using Pos.peano_ind.
  - cbn. lia.
  - rewrite Pos.iter_succ, Pos2Z.inj_succ, Z.pow_succ_r by lia.
    rewrite Pos2Z.inj_xO, IH. lia.
Qed.

Lemma shl_align_value (m : positive) (e ez : Z) :
  ez <= e -> Zpos (fst (shl_align m e ez)) = Zpos m * 2 ^ (e - ez).
Proof.
  intros H. unfold shl_align.
  destruct (ez - e) as [|d|d] eqn:Hd; try lia.
  - replace (e - ez) with 0 by lia. cbn [fst]. lia.
  - cbn [fst]. rewrite iter_xO_value. f_equal. f_equal. lia.
Qed.

(** What [valid] says of a finite float: at most 53 digits, and exactly
    53 above the least exponent. *)
Lemma valid_finite (s : bool) (m : positive) (e : Z) :
  valid (S754_finite s m e) = true ->
  -1074 <= e /\ Zpos (digits2_pos m) <= 53
  /\ (-1074 < e -> Zpos (digits2_pos m) = 53).
Proof.
  unfold valid, valid_binary, bounded, canonical_mantissa, fexp, SpecFloat.emin, prec, emax.
  intros H. apply andb_prop in H. destruct H as [H _].
  apply Z.eqb_eq in H. lia.
Qed.

(** Of two valid positive magnitudes, the one with the smaller exponent
    is the smaller one. *)
Lemma magnitude_lt_by_exponent (s1 s2 : bool) (m1 m2 : positive) (e1 e2 : Z) :
  valid (S754_finite s1 m1 e1) = true ->
  valid (S754_finite s2 m2 e2) = true ->
  e1 < e2 ->
  Zpos m1 < Zpos m2 * 2 ^ (e2 - e1).
Proof.
  intros V1 V2 He.
  apply valid_finite in V1, V2.
  destruct V1 as (L1 & D1 & _), V2 as (_ & _ & D2).
  specialize (D2 ltac:(lia)).
  pose proof (digits2_pos_bounds m1) as B1.
  pose proof (digits2_pos_bounds m2) as B2.
  rewrite D2 in B2.
  assert (Zpos m1 < 2 ^ 53).
  { eapply Z.lt_le_trans; [apply B1|]. apply Z.pow_le_mono_r; lia. }
  assert (2 ^ 1 <= 2 ^ (e2 - e1)) by (apply Z.pow_le_mono_r; lia).
  change (2 ^ 1) with 2 in *. change (53 - 1) with 52 in *.
  change (2 ^ 53) with (2 * 2 ^ 52) in *.
  nia.
Qed.

Lemma binary_round_aux_negative_not_above (m0 : positive) (e0 : Z) mx ex lx :
  SFltb (S754_finite false m0 e0) (binary_round_aux prec emax true mx ex lx) = false.
Proof.
  unfold binary_round_aux.
  destruct (shr_fexp prec emax mx ex lx) as [mrs' e'].
  destruct (shr_fexp prec emax _ e' loc_Exact) as [mrs'' e''].
  destruct (shr_m mrs''); [reflexivity| |reflexivity].
  now destruct (e'' <=? emax - prec).
Qed.

Lemma binary_normalize_nonpos_not_above (m0 : positive) (e0 : Z) (d e : Z) :
  d <= 0 ->
  SFltb (S754_finite false m0 e0) (binary_normalize prec emax d e false) = false.
Proof.
  intros H. destruct d as [|p|p]; [reflexivity|lia|].
  unfold binary_normalize, binary_round.
  destruct (shl_align p e _) as [mz ez].
  apply binary_round_aux_negative_not_above.
Qed.

(** The aligned integer difference [y - x] of two valid finite floats
    is not positive when [y < x]. *)
Lemma aligned_difference_nonpos sy my ey sx mx ex :
  valid (S754_finite sy my ey) = true ->
  valid (S754_finite sx mx ex) = true ->
  flt (S754_finite sy my ey) (S754_finite sx mx ex) = true ->
  cond_Zopp sy (Zpos (fst (shl_align my ey (Z.min ey ex))))
  - cond_Zopp sx (Zpos (fst (shl_align mx ex (Z.min ey ex)))) <= 0.
Proof.
  intros Vy Vx H.
  rewrite !shl_align_value by lia.
  unfold flt, SFltb in H. cbn in H. fold (Pos.compare my mx) in H.
  assert (P1 : 0 < 2 ^ (ey - Z.min ey ex)) by (apply Z.pow_pos_nonneg; lia).
  assert (P2 : 0 < 2 ^ (ex - Z.min ey ex)) by (apply Z.pow_pos_nonneg; lia).
  destruct sy, sx; cbn [cond_Zopp]; try discriminate H.
  - (* both negative *)
    destruct (Z.compare_spec ey ex) as [He|He|He]; try discriminate H.
    + subst ex. rewrite Z.min_id, Z.sub_diag, Z.pow_0_r.
      destruct (Pos.compare_spec my mx) as [Hm|Hm|Hm]; try discriminate H. lia.
    + pose proof (magnitude_lt_by_exponent _ _ _ _ _ _ Vx Vy He) as L.
      rewrite Z.min_r by lia. rewrite Z.sub_diag, Z.pow_0_r. lia.
  - lia.
  - (* both positive *)
    destruct (Z.compare_spec ey ex) as [He|He|He]; try discriminate H.
    + subst ex. rewrite Z.min_id, Z.sub_diag, Z.pow_0_r.
      destruct (Pos.compare_spec my mx) as [Hm|Hm|Hm]; try discriminate H. lia.
    + pose proof (magnitude_lt_by_exponent _ _ _ _ _ _ Vy Vx He) as L.
      rewrite Z.min_l by lia. rewrite Z.sub_diag, Z.pow_0_r. lia.
Qed.

(** For valid floats, [y < x] makes [y - x] a value that is not above
    the segment precision. *)
Lemma difference_of_reversed_not_above (x y : float) :
  valid x = true -> valid y = true -> flt y x = true ->
  fgt (fsub y x) Segment.SEGMENT_PRECISION = false.
Proof.
  intros Vx Vy H. unfold fgt, Segment.SEGMENT_PRECISION.
  destruct y as [sy|sy| |sy my ey], x as [sx|sx| |sx mx ex];
    try discriminate H;
    try (destruct sy; try discriminate H; reflexivity);
    try (destruct sx; try discriminate H; reflexivity);
    try (destruct sy, sx; try discriminate H; reflexivity).
  unfold fsub, SFsub.
  apply binary_normalize_nonpos_not_above.
  now apply aligned_difference_nonpos.
Qed.

(** A segment whose end is below its start has duration [0.0]. *)
Lemma duration_of_reversed_ends (x y : float) :
  valid x = true -> valid y = true -> flt y x = true ->
  Segment.duration (Segment.Segment x y) = S754_zero false.
Proof.
  intros Vx Vy H. unfold Segment.duration, Segment.__bool__.
  cbn [Segment.start Segment.end_].
  now rewrite difference_of_reversed_not_above.
Qed.

End FloatFacts.


Example sample_floats :
  map float_of_string ["1.000"; "1.5"; "2.000"]
  = [Some float_1; Some float_1_5; Some float_2].
Proof. vm_compute. reflexivity. Qed.

(** ** C8: zero-duration segments *)

(** C8.  For every record of an annotation whose segment has
    [start == end], [to_rttm] completes and the line it writes for that
    record carries the duration field ["0.000"]. *)
Theorem C8_zero_duration :
  forall (a : Annotation) (sink : list string) (i : nat)
         (segment : Segment.t) (track : Z) (label : string),
    nth_error (segment_list a) i = Some (segment, track, label) ->
    feq (Segment.start segment) (Segment.end_ segment) = true ->
    exists lines,
      Ann.to_rttm (mkWorld a sink) = (tt, mkWorld a (sink ++ lines))
      /\ nth_error lines i
         = Some ("SPEAKER " ++ Ann.str_optional (uri a) ++ " 1 "
                   ++ format_3f (Segment.start segment) ++ " " ++ "0.000"
                   ++ " <NA> <NA> " ++ label ++ " <NA>" ++ nl)%string.
Proof.
  intros a sink i segment track label Hi Heq.
  rewrite to_rttm_run. cbn [self file].
  eexists. split; [reflexivity|].
  rewrite nth_error_map, Hi. cbn [option_map Ann.rttm_line].
  destruct segment as [x y]. cbn [Segment.start Segment.end_] in *.
  now rewrite (duration_of_equal_ends x y Heq).
Qed.

Lemma C8_zero_duration_witness :
  feq float_2 float_2 = true
  /\ exists lines,
       Ann.to_rttm (mkWorld (mkAnnotation [(Segment.Segment float_2 float_2, 1, "spk1")]
                                          (Some "file1") None) [])
       = (tt, mkWorld (mkAnnotation [(Segment.Segment float_2 float_2, 1, "spk1")]
                                    (Some "file1") None) ([] ++ lines))
       /\ nth_error lines 0
          = Some ("SPEAKER file1 1 2.000 0.000 <NA> <NA> spk1 <NA>" ++ nl)%string.
Proof.
  split; [reflexivity|].
  exact (C8_zero_duration
           (mkAnnotation [(Segment.Segment float_2 float_2, 1, "spk1")] (Some "file1") None)
           [] 0%nat (Segment.Segment float_2 float_2) 1 "spk1" eq_refl eq_refl).
Defined.

(** ** Text lemmas *)

Section Text.

Lemma append_assoc (a b c : string) : ((a ++ b) ++ c = a ++ (b ++ c))%string.
Proof. induction a as [|x a IH]; cbn; [reflexivity|now rewrite IH]. Qed.

Lemma append_nil_r (a : string) : (a ++ "" = a)%string.
Proof. induction a as [|x a IH]; cbn; [reflexivity|now rewrite IH]. Qed.

Lemma str_forall_app (p : ascii -> bool) (a b : string) :
  str_forall p (a ++ b) = str_forall p a && str_forall p b.
Proof.
  induction a as [|x a IH]; cbn; [reflexivity|].
  now rewrite IH, andb_assoc.
Qed.

Lemma str_forall_impl (p q : ascii -> bool) (s : string) :
  (forall c, p c = true -> q c = true) ->
  str_forall p s = true -> str_forall q s = true.
Proof.
  intros Hpq. induction s as [|x s IH]; cbn; [reflexivity|].
  intros H. apply andb_prop in H. destruct H as [Hx Hs].
  now rewrite (Hpq _ Hx), IH.
Qed.

Lemma str_forall_not_mem (p : ascii -> bool) (c : ascii) (s : string) :
  p c = false -> str_forall p s = true -> mem c s = false.
Proof.
  intros Hc. induction s as [|x s IH]; cbn; [reflexivity|].
  intros H. apply andb_prop in H. destruct H as [Hx Hs].
  rewrite (IH Hs), orb_false_r.
  destruct (Ascii.eqb_spec x c) as [->|]; [congruence|reflexivity].
Qed.

Lemma mem_app (c : ascii) (a b : string) :
  mem c (a ++ b) = mem c a || mem c b.
Proof.
  induction a as [|x a IH]; cbn; [reflexivity|].
  now rewrite IH, orb_assoc.
Qed.

Lemma split_without_sep (sep : ascii) (s : string) :
  mem sep s = false -> split sep s = [s].
Proof.
  induction s as [|x s IH]; cbn; [reflexivity|].
  intros H. apply orb_false_elim in H. destruct H as [Hx Hs].
  now rewrite Hx, (IH Hs).
Qed.

Lemma split_at_first_sep (sep : ascii) (a b : string) :
  mem sep a = false ->
  split sep (a ++ String sep b) = a :: split sep b.
Proof.
  induction a as [|x a IH]; cbn.
  - intros _. now rewrite Ascii.eqb_refl.
  - intros H. apply orb_false_elim in H. destruct H as [Hx Ha].
    now rewrite Hx, (IH Ha).
Qed.

End Text.

(** ** The [.3f] format *)

Section Format.

Lemma digit_char_is_digit (n : Z) : is_digit (digit_char (n mod 10)) = true.
Proof.
  pose proof (Z.mod_pos_bound n 10 ltac:(lia)) as B.
  assert (H : n mod 10 = 0 \/ n mod 10 = 1 \/ n mod 10 = 2 \/ n mod 10 = 3
              \/ n mod 10 = 4 \/ n mod 10 = 5 \/ n mod 10 = 6 \/ n mod 10 = 7
              \/ n mod 10 = 8 \/ n mod 10 = 9) by lia.
  repeat (destruct H as [->|H]; [reflexivity|]). now rewrite H.
Qed.

Lemma digits_fuel_shape (fuel : nat) (n : Z) (acc : string) :
  exists c p,
    digits_fuel (S fuel) n acc = (String c p ++ acc)%string
    /\ str_forall is_digit (String c p) = true.
Proof.
  revert n acc. induction fuel as [|fuel IH]; intros n acc.
  - exists (digit_char (n mod 10)), EmptyString. cbn.
    rewrite digit_char_is_digit. now destruct (n <? 10).
  - cbn [digits_fuel]. destruct (n <? 10).
    + exists (digit_char (n mod 10)), EmptyString. cbn.
      now rewrite digit_char_is_digit.
    + destruct (IH (n / 10) (String (digit_char (n mod 10)) acc)) as (c & p & E & D).
      cbn [digits_fuel] in E. rewrite E.
      exists c, (p ++ String (digit_char (n mod 10)) EmptyString)%string. split.
      * cbn. now rewrite append_assoc.
      * cbn in D |- *. apply andb_prop in D. destruct D as [Dc Dp].
        rewrite Dc, str_forall_app, Dp. cbn.
        now rewrite digit_char_is_digit.
Qed.

Lemma decimal_shape (n : Z) :
  exists c p, decimal n = String c p /\ str_forall is_digit (String c p) = true.
Proof.
  unfold decimal.
  destruct (digits_fuel_shape (Z.to_nat (Z.log2 n)) n EmptyString) as (c & p & E & D).
  exists c, p. now rewrite E, append_nil_r.
Qed.

Lemma three_digits_shape (n : Z) :
  String.length (three_digits n) = 3%nat
  /\ str_forall is_digit (three_digits n) = true.
Proof.
  unfold three_digits. cbn. now rewrite !digit_char_is_digit.
Qed.

Lemma is_digit_not (c d : ascii) :
  is_digit c = true -> is_digit d = false -> Ascii.eqb c d = false.
Proof.
  intros Hc Hd. destruct (Ascii.eqb_spec c d) as [->|]; [congruence|reflexivity].
Qed.

Lemma fixed3_three_decimals (n : Z) : three_decimals (fixed3 n) = true.
Proof.
  unfold fixed3, three_decimals.
  destruct (decimal_shape (n / 1000)) as (c & p & E & D).
  destruct (three_digits_shape (n mod 1000)) as (L3 & D3).
  rewrite E. cbn [append].
  pose proof D as D'. cbn in D'. apply andb_prop in D'. destruct D' as [Dc Dp].
  rewrite (is_digit_not c "-" Dc eq_refl). cbv beta iota zeta.
  change (String c (p ++ String "." (three_digits (n mod 1000))))%string
    with (String c p ++ String "." (three_digits (n mod 1000)))%string.
  rewrite split_at_first_sep by (now apply (str_forall_not_mem is_digit)).
  rewrite split_without_sep by (now apply (str_forall_not_mem is_digit)).
  rewrite D, L3, D3. reflexivity.
Qed.

Lemma fixed3_minus_three_decimals (n : Z) :
  three_decimals ("-" ++ fixed3 n) = true.
Proof.
  pose proof (fixed3_three_decimals n) as H.
  unfold three_decimals in *. cbn [append]. rewrite Ascii.eqb_refl.
  unfold fixed3 in *.
  destruct (decimal_shape (n / 1000)) as (c & p & E & D).
  rewrite E in *. cbn [append] in H.
  pose proof D as D'. cbn in D'. apply andb_prop in D'. destruct D' as [Dc Dp].
  now rewrite (is_digit_not c "-" Dc eq_refl) in H.
Qed.

(** Every float that denotes a number is written with exactly three
    decimals. *)
Lemma format_3f_three_decimals (x : float) :
  match x with
  | S754_zero _ | S754_finite _ _ _ => three_decimals (format_3f x) = true
  | _ => True
  end.
Proof.
  destruct x as [s|s| |s m e]; try exact I.
  - now destruct s.
  - cbn [format_3f]. destruct s.
    + apply fixed3_minus_three_decimals.
    + apply fixed3_three_decimals.
Qed.

End Format.

(** ** C2: the layout of an RTTM line *)

Lemma rttm_line_retrack (u : option string) (f : Z -> Z) (rs : list record) :
  map (Ann.rttm_line u) (retrack f rs) = map (Ann.rttm_line u) rs.
Proof.
  unfold retrack. rewrite map_map. apply map_ext.
  now intros [[segment track] label].
Qed.

(** C2, as the code has it.  For every annotation, [to_rttm] writes one
    line per record, in record order, laid out as
    [SPEAKER <uri> 1 <start:.3f> <duration:.3f> <NA> <NA> <label> <NA>]
    and a newline: the second field is the uri (the text ["None"] when
    there is none), the third field is the constant ["1"] whatever the
    track ids are, and the duration field is the segment's [duration]
    in [.3f] format, that is [end - start] when this difference exceeds
    the segment precision [1e-6] and [0.0] otherwise; [.3f] gives every
    float that denotes a number exactly three decimals. *)
Theorem C2_to_rttm_layout :
  forall (a : Annotation) (sink : list string),
    file (exec Ann.to_rttm (mkWorld a sink))
    = sink ++ map (fun '(segment, _, label) =>
                     let d := fsub (Segment.end_ segment) (Segment.start segment) in
                     ("SPEAKER " ++ match uri a with Some u => u | None => "None" end
                        ++ " 1 " ++ format_3f (Segment.start segment) ++ " "
                        ++ format_3f (if fgt d Segment.SEGMENT_PRECISION
                                      then d else S754_zero false)
                        ++ " <NA> <NA> " ++ label ++ " <NA>" ++ nl)%string)
                  (segment_list a)
    /\ (forall f : Z -> Z,
          file (exec Ann.to_rttm
                  (mkWorld (mkAnnotation (retrack f (segment_list a)) (uri a) (modality a))
                           sink))
          = file (exec Ann.to_rttm (mkWorld a sink)))
    /\ (forall x : float,
          match x with
          | S754_zero _ | S754_finite _ _ _ => three_decimals (format_3f x) = true
          | _ => True
          end).
Proof.
  intros a sink. unfold exec. split; [|split].
  - rewrite to_rttm_run. cbn [snd file self]. f_equal.
  - intros f. rewrite !to_rttm_run. cbn [snd file self segment_list uri].
    now rewrite rttm_line_retrack.
  - apply format_3f_three_decimals.
Qed.

(** C2 as stated fails on a segment whose end is below its start: for
    the record (start 1.5, end 1.0) the duration field written is
    ["0.000"], while [end - start] in [.3f] format is ["-0.500"]. *)
Lemma C2_reversed_segment_counterexample :
  let a := mkAnnotation [(Segment.Segment float_1_5 float_1, 1, "spk1")] None None in
  file (exec Ann.to_rttm (mkWorld a []))
  = [("SPEAKER None 1 1.500 0.000 <NA> <NA> spk1 <NA>" ++ nl)%string]
  /\ map (Spec.stated_rttm_line (uri a)) (segment_list a)
     = [("SPEAKER None 1 1.500 -0.500 <NA> <NA> spk1 <NA>" ++ nl)%string]
  /\ file (exec Ann.to_rttm (mkWorld a []))
     <> map (Spec.stated_rttm_line (uri a)) (segment_list a).
Proof.
  cbv zeta. split; [|split].
  - vm_compute. reflexivity.
  - vm_compute. reflexivity.
  - vm_compute. discriminate.
Qed.

(** ** C10: segments whose end is below their start *)

(** C10, as the code has it.  [from_records] stores any record list as it
    is given, without validation; for a record whose segment has
    [end < start] (start and end being binary64 values), [to_rttm]
    completes and writes for it a line whose duration field is ["0.000"]
    (the segment's [duration] is [0.0] there), and [to_audacity] writes
    its start and end as they are. *)
Theorem C10_reversed_segment :
  forall (records : list record) (u m : option string) (sink : list string)
         (i : nat) (segment : Segment.t) (track : Z) (label : string),
    nth_error records i = Some (segment, track, label) ->
    valid (Segment.start segment) = true ->
    valid (Segment.end_ segment) = true ->
    flt (Segment.end_ segment) (Segment.start segment) = true ->
    let a := Ann.from_records records u m in
    segment_list a = records /\ uri a = u /\ modality a = m
    /\ (exists lines,
          Ann.to_rttm (mkWorld a sink) = (tt, mkWorld a (sink ++ lines))
          /\ nth_error lines i
             = Some ("SPEAKER " ++ Ann.str_optional u ++ " 1 "
                       ++ format_3f (Segment.start segment) ++ " " ++ "0.000"
                       ++ " <NA> <NA> " ++ label ++ " <NA>" ++ nl)%string)
    /\ (exists lines,
          Ann.to_audacity (mkWorld a sink) = (join lines, mkWorld a sink)
          /\ nth_error lines i
             = Some (format_3f (Segment.start segment) ++ tab
                       ++ format_3f (Segment.end_ segment) ++ tab ++ label ++ nl)%string).
Proof.
  intros records u m sink i segment track label Hi Vs Ve Hlt a.
  repeat split.
  - rewrite to_rttm_run. cbn [self file]. eexists. split; [reflexivity|].
    cbn [a Ann.from_records segment_list uri].
    rewrite nth_error_map, Hi. cbn [option_map Ann.rttm_line].
    destruct segment as [x y]. cbn [Segment.start Segment.end_] in *.
    now rewrite (duration_of_reversed_ends x y Vs Ve Hlt).
  - rewrite to_audacity_run. cbn [self]. eexists. split; [reflexivity|].
    cbn [a Ann.from_records segment_list].
    now rewrite nth_error_map, Hi.
Qed.

Lemma C10_reversed_segment_witness :
  let records := [(Segment.Segment float_2 float_1, 1, "spk1")] in
  let a := Ann.from_records records None None in
  flt float_1 float_2 = true
  /\ (exists lines,
        Ann.to_rttm (mkWorld a []) = (tt, mkWorld a ([] ++ lines))
        /\ nth_error lines 0
           = Some ("SPEAKER None 1 2.000 0.000 <NA> <NA> spk1 <NA>" ++ nl)%string).
Proof.
  split; [reflexivity|].
  exact (proj1 (proj2 (proj2 (proj2
           (C10_reversed_segment [(Segment.Segment float_2 float_1, 1, "spk1")]
              None None [] 0%nat (Segment.Segment float_2 float_1) 1 "spk1"
              eq_refl eq_refl eq_refl eq_refl))))).
Defined.

(** C10 as stated fails on its own example: for the record (start 2.0,
    end 1.0) the duration field [to_rttm] writes is ["0.000"], not the
    negative value ["-1.000"] that [end - start] has in [.3f] format. *)
Lemma C10_negative_duration_counterexample :
  let a := Ann.from_records [(Segment.Segment float_2 float_1, 1, "spk1")] None None in
  format_3f (fsub float_1 float_2) = "-1.000"
  /\ file (exec Ann.to_rttm (mkWorld a []))
     = [("SPEAKER None 1 2.000 0.000 <NA> <NA> spk1 <NA>" ++ nl)%string]
  /\ file (exec Ann.to_rttm (mkWorld a []))
     <> [("SPEAKER None 1 2.000 -1.000 <NA> <NA> spk1 <NA>" ++ nl)%string].
Proof.
  cbv zeta. split; [|split].
  - vm_compute. reflexivity.
  - vm_compute. reflexivity.
  - vm_compute. discriminate.
Qed.

(** ** Reading lines *)

Import Line.

Section Readers.

Variable parse : string -> result record.
Variable ok : string -> bool.

Hypothesis parse_ok :
  forall line r, parse line = Ok r -> ok line = true.
Hypothesis parse_raise :
  forall line e, parse line = Raise e -> ok line = false /\ parse_error e = true.

Lemma append_records_spec (lines : list string) (acc : list record) :
  match Ann.append_records parse lines acc with
  | Ok out =>
      Forall (fun l => ok l = true) lines
      /\ exists rs, out = acc ++ rs /\ Forall2 (fun l r => parse l = Ok r) lines rs
  | Raise e =>
      parse_error e = true /\ Exists (fun l => ok l = false) lines
  end.
Proof.
  revert acc. induction lines as [|l ls IH]; intros acc; cbn.
  - split; [constructor|]. exists []. now rewrite app_nil_r.
  - destruct (parse l) as [r|e] eqn:E; cbn.
    + specialize (IH (acc ++ [r])).
      destruct (Ann.append_records parse ls (acc ++ [r])) as [out|e'].
      * destruct IH as (F & rs & -> & F2). split.
        -- constructor; [now apply (parse_ok l r)|assumption].
        -- exists (r :: rs). rewrite <- app_assoc. split; [reflexivity|].
           now constructor.
      * destruct IH as (P & X). split; [assumption|now apply Exists_cons_tl].
    + destruct (parse_raise l e E) as (O & P). split; [assumption|].
      now apply Exists_cons_hd.
Qed.

Lemma Forall_not_Exists (lines : list string) :
  Forall (fun l => ok l = true) lines ->
  Exists (fun l => ok l = false) lines -> False.
Proof.
  intros F X. induction X as [l ls H|l ls X IH]; inversion F; subst.
  - congruence.
  - now apply IH.
Qed.

End Readers.

(** ** One line of each reader *)

Section OneLine.

Lemma leb_8_false (tokens : list string) (i : nat) :
  (i < 8)%nat -> nth_error tokens i = None ->
  Nat.leb 8 (List.length tokens) = false.
Proof.
  intros Hi E. apply nth_error_None in E. apply Nat.leb_gt. lia.
Qed.

Lemma leb_8_true (tokens : list string) (t : string) :
  nth_error tokens 7 = Some t -> Nat.leb 8 (List.length tokens) = true.
Proof.
  intros E. apply Nat.leb_le.
  assert (H : nth_error tokens 7 <> None) by congruence.
  apply nth_error_Some in H. lia.
Qed.

(** What [rttm_record] returns, by cases on the tokens of the line. *)
Lemma rttm_record_cases (line : string) :
  match Ann.rttm_record line with
  | Ok r =>
      rttm_line_ok line = true
      /\ exists x d t,
           float_of_string (token (rttm_tokens line) 3) = Some x
           /\ float_of_string (token (rttm_tokens line) 4) = Some d
           /\ int_of_string (token (rttm_tokens line) 2) = Some t
           /\ r = (Segment.Segment x (fadd x d), t, token (rttm_tokens line) 7)
  | Raise e => rttm_line_ok line = false /\ parse_error e = true
  end.
Proof.
  unfold Ann.rttm_record, rttm_line_ok, token. fold (rttm_tokens line).
  set (tokens := rttm_tokens line).
  unfold Ann.getitem, Ann.py_float, Ann.py_int, result_bind.
  destruct (nth_error tokens 3) as [t3|] eqn:E3.
  2: { now rewrite (leb_8_false tokens 3) by (lia || assumption). }
  rewrite (nth_error_nth _ _ EmptyString E3).
  destruct (float_of_string t3) as [x|] eqn:F3.
  2: { cbn. now rewrite !andb_false_r. }
  destruct (nth_error tokens 4) as [t4|] eqn:E4.
  2: { now rewrite (leb_8_false tokens 4) by (lia || assumption). }
  rewrite (nth_error_nth _ _ EmptyString E4).
  destruct (float_of_string t4) as [d|] eqn:F4.
  2: { cbn. now rewrite !andb_false_r. }
  destruct (nth_error tokens 2) as [t2|] eqn:E2.
  2: { now rewrite (leb_8_false tokens 2) by (lia || assumption). }
  rewrite (nth_error_nth _ _ EmptyString E2).
  destruct (int_of_string t2) as [t|] eqn:I2.
  2: { cbn. now rewrite !andb_false_r. }
  destruct (nth_error tokens 7) as [t7|] eqn:E7.
  2: { now rewrite (leb_8_false tokens 7) by (lia || assumption). }
  rewrite (nth_error_nth _ _ EmptyString E7), (leb_8_true tokens t7 E7).
  split; [reflexivity|]. now exists x, d, t.
Qed.

Lemma rttm_record_ok (line : string) (r : record) :
  Ann.rttm_record line = Ok r -> rttm_line_ok line = true.
Proof.
  intros E. pose proof (rttm_record_cases line) as H. rewrite E in H. apply H.
Qed.

Lemma rttm_record_raise (line : string) (e : exn) :
  Ann.rttm_record line = Raise e ->
  rttm_line_ok line = false /\ parse_error e = true.
Proof.
  intros E. pose proof (rttm_record_cases line) as H. now rewrite E in H.
Qed.

(** What [audacity_record] returns, by cases on the fields of the line. *)
Lemma audacity_record_cases (line : string) :
  match Ann.audacity_record line with
  | Ok r =>
      audacity_line_ok line = true
      /\ exists start end_ label x y,
           audacity_fields line = [start; end_; label]
           /\ float_of_string start = Some x
           /\ float_of_string end_ = Some y
           /\ r = (Segment.Segment x y, 1, label)
  | Raise e => audacity_line_ok line = false /\ parse_error e = true
  end.
Proof.
  unfold Ann.audacity_record, audacity_line_ok. fold (audacity_fields line).
  destruct (audacity_fields line) as [|s [|e [|label [|extra more]]]];
    try (split; reflexivity).
  unfold Ann.py_float, result_bind.
  destruct (float_of_string s) as [x|] eqn:Fs; [|split; reflexivity].
  destruct (float_of_string e) as [y|] eqn:Fe; [|split; reflexivity].
  split; [reflexivity|]. now exists s, e, label, x, y.
Qed.

Lemma audacity_record_ok (line : string) (r : record) :
  Ann.audacity_record line = Ok r -> audacity_line_ok line = true.
Proof.
  intros E. pose proof (audacity_record_cases line) as H. rewrite E in H. apply H.
Qed.

Lemma audacity_record_raise (line : string) (e : exn) :
  Ann.audacity_record line = Raise e ->
  audacity_line_ok line = false /\ parse_error e = true.
Proof.
  intros E. pose proof (audacity_record_cases line) as H. now rewrite E in H.
Qed.

End OneLine.

(** ** C3: when [from_rttm] fails *)

Lemma is_some_false {A : Type} (o : option A) : is_some o = false <-> o = None.
Proof. destruct o; cbn; split; congruence. Qed.

Lemma rttm_line_ok_false (line : string) :
  rttm_line_ok line = false
  <-> (let tokens := rttm_tokens line in
       (List.length tokens < 8)%nat
       \/ int_of_string (token tokens 2) = None
       \/ float_of_string (token tokens 3) = None
       \/ float_of_string (token tokens 4) = None).
Proof.
  unfold rttm_line_ok. cbv zeta.
  rewrite !andb_false_iff, !is_some_false, Nat.leb_gt. tauto.
Qed.

(** C3, as the code has it.  The tokens of a line are those of
    [line.rstrip().split(" ")]: the line without its trailing whitespace,
    cut at every single space.  [from_rttm] fails with a parse error
    exactly when some line has fewer than 8 such tokens, or its token 2
    does not read as an integer, or its token 3 or 4 does not read as a
    float; when every line has at least 8 tokens with tokens 2, 3 and 4
    readable, no error is raised and one record is appended per line, in
    order: start from token 3, end from token 3 plus token 4, track from
    token 2, label token 7. *)
Theorem C3_from_rttm_failures :
  forall (rttm_file : list string) (u m : option string),
    (raises_parse_error (Ann.from_rttm rttm_file u m)
     <-> Exists (fun line => rttm_line_ok line = false) rttm_file)
    /\ (forall line,
          rttm_line_ok line = false
          <-> (let tokens := rttm_tokens line in
               (List.length tokens < 8)%nat
               \/ int_of_string (token tokens 2) = None
               \/ float_of_string (token tokens 3) = None
               \/ float_of_string (token tokens 4) = None))
    /\ (Forall (fun line => rttm_line_ok line = true) rttm_file ->
        exists a,
          Ann.from_rttm rttm_file u m = Ok a
          /\ uri a = u /\ modality a = m
          /\ Forall2 (fun line r =>
                        exists x d t,
                          float_of_string (token (rttm_tokens line) 3) = Some x
                          /\ float_of_string (token (rttm_tokens line) 4) = Some d
                          /\ int_of_string (token (rttm_tokens line) 2) = Some t
                          /\ r = (Segment.Segment x (fadd x d), t,
                                  token (rttm_tokens line) 7))
                     rttm_file (segment_list a)).
Proof.
  intros rttm_file u m.
  pose proof (append_records_spec Ann.rttm_record rttm_line_ok
                rttm_record_ok rttm_record_raise rttm_file []) as H.
  unfold Ann.from_rttm, result_bind, raises_parse_error.
  destruct (Ann.append_records Ann.rttm_record rttm_file []) as [out|e].
  - destruct H as (F & rs & -> & F2). split; [|split].
    + split.
      * intros (e & E & _). discriminate E.
      * intros X. exfalso. exact (Forall_not_Exists _ _ F X).
    + apply rttm_line_ok_false.
    + intros _. eexists. split; [reflexivity|]. cbn. repeat split.
      clear F. induction F2 as [|line r ls rs' E F2 IH]; constructor; [|assumption].
      pose proof (rttm_record_cases line) as C. rewrite E in C. apply C.
  - destruct H as (P & X). split; [|split].
    + split; [intros _; assumption|]. intros _. now exists e.
    + apply rttm_line_ok_false.
    + intros F. exfalso. exact (Forall_not_Exists _ _ F X).
Qed.

Lemma C3_from_rttm_failures_witness :
  Forall (fun line => rttm_line_ok line = true) [scenario_rttm_line]
  /\ exists a,
       Ann.from_rttm [scenario_rttm_line] (Some "file1") None = Ok a
       /\ uri a = Some "file1" /\ modality a = None
       /\ Forall2 (fun line r =>
                     exists x d t,
                       float_of_string (token (rttm_tokens line) 3) = Some x
                       /\ float_of_string (token (rttm_tokens line) 4) = Some d
                       /\ int_of_string (token (rttm_tokens line) 2) = Some t
                       /\ r = (Segment.Segment x (fadd x d), t,
                               token (rttm_tokens line) 7))
                  [scenario_rttm_line] (segment_list a).
Proof.
  assert (F : Forall (fun line => rttm_line_ok line = true) [scenario_rttm_line]).
  { constructor; [vm_compute; reflexivity|constructor]. }
  split; [exact F|].
  exact (proj2 (proj2 (C3_from_rttm_failures [scenario_rttm_line] (Some "file1") None)) F).
Defined.

(** C3 as stated fails on a line whose tokens are separated by tabs: it
    has 9 whitespace-separated tokens, of which token 2 reads as an
    integer and tokens 3 and 4 read as floats, and [from_rttm] raises
    [IndexError] on it. *)
Lemma C3_tab_separated_counterexample :
  let line :=
    ("SPEAKER" ++ tab ++ "file1" ++ tab ++ "1" ++ tab ++ "10.000" ++ tab ++ "2.500"
       ++ tab ++ "<NA>" ++ tab ++ "<NA>" ++ tab ++ "spk1" ++ tab ++ "<NA>")%string in
  let tokens := Spec.whitespace_tokens line in
  tokens = ["SPEAKER"; "file1"; "1"; "10.000"; "2.500"; "<NA>"; "<NA>"; "spk1"; "<NA>"]
  /\ (8 <= List.length tokens)%nat
  /\ is_some (int_of_string (token tokens 2)) = true
  /\ is_some (float_of_string (token tokens 3)) = true
  /\ is_some (float_of_string (token tokens 4)) = true
  /\ Ann.from_rttm [line] None None = Raise IndexError.
Proof.
  cbv zeta. repeat split; try (vm_compute; reflexivity). vm_compute. lia.
Qed.

(** ** C4: when [from_audacity] fails *)

Lemma audacity_line_ok_false (line : string) :
  audacity_line_ok line = false
  <-> (let fields := audacity_fields line in
       List.length fields <> 3%nat
       \/ float_of_string (token fields 0) = None
       \/ float_of_string (token fields 1) = None).
Proof.
  unfold audacity_line_ok, token. cbv zeta.
  destruct (audacity_fields line) as [|s [|e [|label [|extra more]]]]; cbn;
    try (split; [intros _; left; lia|reflexivity]).
  rewrite andb_false_iff, !is_some_false. split; [tauto|].
  intros [H|H]; [lia|exact H].
Qed.

(** C4, as the code has it.  The fields of a line are those of
    [line.rstrip().split("\t")]: the line without its trailing whitespace
    (line terminator, spaces and tabs alike), cut at every tab.
    [from_audacity] on a readable file fails with a parse error exactly
    when some line does not have exactly 3 such fields, or its first or
    second field does not read as a float; every line read yields a
    record whose segment takes start and end from the first two fields,
    whose track is the constant 1 and whose label is the third field. *)
Theorem C4_from_audacity_failures :
  forall (fs : filesystem) (audacity_file text : string) (u m : option string),
    fs audacity_file = Some text ->
    let lines := Ann.readlines (Ann.universal_newlines text) in
    (raises_parse_error (Ann.from_audacity fs audacity_file u m)
     <-> Exists (fun line => audacity_line_ok line = false) lines)
    /\ (forall line,
          audacity_line_ok line = false
          <-> (let fields := audacity_fields line in
               List.length fields <> 3%nat
               \/ float_of_string (token fields 0) = None
               \/ float_of_string (token fields 1) = None))
    /\ (forall a,
          Ann.from_audacity fs audacity_file u m = Ok a ->
          uri a = u /\ modality a = m
          /\ Forall2 (fun line r =>
                        exists start end_ label x y,
                          audacity_fields line = [start; end_; label]
                          /\ float_of_string start = Some x
                          /\ float_of_string end_ = Some y
                          /\ r = (Segment.Segment x y, 1, label))
                     lines (segment_list a)).
Proof.
  intros fs audacity_file text u m Hfs lines.
  pose proof (append_records_spec Ann.audacity_record audacity_line_ok
                audacity_record_ok audacity_record_raise lines []) as H.
  unfold Ann.from_audacity, Ann.open_lines, raises_parse_error.
  rewrite Hfs. cbn [result_bind]. fold lines.
  destruct (Ann.append_records Ann.audacity_record lines []) as [out|e]; cbn [result_bind].
  - destruct H as (F & rs & -> & F2). split; [|split].
    + split.
      * intros (e & E & _). discriminate E.
      * intros X. exfalso. exact (Forall_not_Exists _ _ F X).
    + apply audacity_line_ok_false.
    + intros a E. injection E as <-. cbn. repeat split.
      clear F. induction F2 as [|line r ls rs' E F2 IH]; constructor; [|assumption].
      pose proof (audacity_record_cases line) as C. rewrite E in C. apply C.
  - destruct H as (P & X). split; [|split].
    + split; [intros _; assumption|]. intros _. now exists e.
    + apply audacity_line_ok_false.
    + intros a E. discriminate E.
Qed.


Lemma C4_from_audacity_failures_witness :
  (fun _ : string => Some two_field_text) "labels.txt" = Some two_field_text
  /\ raises_parse_error
       (Ann.from_audacity (fun _ => Some two_field_text) "labels.txt" None None).
Proof.
  split; [reflexivity|].
  apply (proj1 (C4_from_audacity_failures (fun _ => Some two_field_text)
                  "labels.txt" two_field_text None None eq_refl)).
  apply Exists_cons_hd. vm_compute. reflexivity.
Defined.

(** C4 as stated fails on a line with an empty label: the line
    [1.000<tab>2.000<tab>] has exactly 3 tab-separated fields, the first
    two of which read as floats, and [from_audacity] raises [ValueError]
    on it, because the trailing tab is removed with the line terminator. *)
Lemma C4_empty_label_counterexample :
  let text := ("1.000" ++ tab ++ "2.000" ++ tab ++ nl)%string in
  Ann.readlines (Ann.universal_newlines text) = [text]
  /\ Spec.tab_fields text = ["1.000"; "2.000"; ""]
  /\ split TAB text = ["1.000"; "2.000"; nl]
  /\ float_of_string "1.000" = Some float_1
  /\ float_of_string "2.000" = Some float_2
  /\ audacity_fields text = ["1.000"; "2.000"]
  /\ Ann.from_audacity (fun _ => Some text) "labels.txt" None None = Raise ValueError.
Proof.
  cbv zeta. repeat split; vm_compute; reflexivity.
Qed.

(** ** Lines of a marker-timeline text *)

Section MarkerText.

Lemma universal_newlines_without_cr (s : string) :
  mem CR s = false -> Ann.universal_newlines s = s.
Proof.
  induction s as [|c s IH]; cbn; [reflexivity|].
  intros H. apply orb_false_elim in H. destruct H as [Hc Hs].
  now rewrite Hc, (IH Hs).
Qed.

Lemma readlines_first_line (body rest : string) :
  mem LF body = false ->
  Ann.readlines (body ++ nl ++ rest) = (body ++ nl)%string :: Ann.readlines rest.
Proof.
  induction body as [|c body IH]; cbn.
  - reflexivity.
  - intros H. apply orb_false_elim in H. destruct H as [Hc Hb].
    rewrite Hc. cbn in IH. now rewrite (IH Hb).
Qed.

Lemma rstrip_all_space (t : string) :
  str_forall isspace t = true -> rstrip t = EmptyString.
Proof.
  induction t as [|c t IH]; cbn; [reflexivity|].
  intros H. apply andb_prop in H. destruct H as [Hc Ht].
  now rewrite (IH Ht), Hc.
Qed.

Lemma rstrip_app_space (s t : string) :
  str_forall isspace t = true -> rstrip (s ++ t) = rstrip s.
Proof.
  intros Ht. induction s as [|c s IH]; cbn.
  - now apply rstrip_all_space.
  - now rewrite IH.
Qed.

Lemma rstrip_app_fixed (a b : string) :
  rstrip b = b -> b <> EmptyString -> rstrip (a ++ b) = (a ++ b)%string.
Proof.
  intros Hb Hne. induction a as [|c a IH]; cbn.
  - exact Hb.
  - rewrite IH. destruct (a ++ b)%string eqn:E; [|reflexivity].
    destruct a; cbn in E; [congruence|discriminate].
Qed.

Lemma format_3f_chars (x : float) :
  str_forall numeric_char (format_3f x) = true.
Proof.
  destruct x as [s|s| |s m e]; try (destruct s; reflexivity); try reflexivity.
  cbn [format_3f]. unfold fixed3.
  destruct (decimal_shape (thousandths m e / 1000)) as (c & p & -> & D).
  destruct (three_digits_shape (thousandths m e mod 1000)) as (_ & D3).
  assert (I : forall c, is_digit c = true -> numeric_char c = true).
  { intros c0 H. unfold numeric_char. now rewrite H. }
  rewrite !str_forall_app.
  rewrite (str_forall_impl _ _ _ I D), (str_forall_impl _ _ _ I D3).
  now destruct s.
Qed.

Lemma formatted_3f_chars (field : string) :
  formatted_3f field = true ->
  exists x, float_of_string field = Some x /\ format_3f x = field
            /\ str_forall numeric_char field = true.
Proof.
  unfold formatted_3f. destruct (float_of_string field) as [x|]; [|discriminate].
  intros H. apply String.eqb_eq in H. exists x. repeat split; [assumption|].
  rewrite <- H. apply format_3f_chars.
Qed.

Lemma label_ok_facts (label : string) :
  label_ok label = true ->
  label <> EmptyString /\ rstrip label = label
  /\ mem TAB label = false /\ mem LF label = false /\ mem CR label = false.
Proof.
  unfold label_ok. intros H.
  repeat (apply andb_prop in H; destruct H as [H ?]).
  repeat match goal with
         | K : negb _ = true |- _ => apply negb_true_iff in K
         end.
  repeat split; try assumption.
  - intros ->. discriminate.
  - now apply String.eqb_eq.
Qed.

(** Reading one well-formed line gives back the record that prints as
    that line. *)
Lemma audacity_record_marker_line (r : row) :
  row_ok r = true ->
  let '(start, end_, label) := r in
  exists x y,
    float_of_string start = Some x /\ float_of_string end_ = Some y
    /\ Ann.audacity_record (marker_line r) = Ok (Segment.Segment x y, 1, label)
    /\ Ann.audacity_line (Segment.Segment x y, 1, label) = marker_line r
    /\ mem LF (start ++ tab ++ end_ ++ tab ++ label) = false
    /\ mem CR (marker_line r) = false.
Proof.
  destruct r as [[start end_] label]. unfold row_ok. intros H.
  apply andb_prop in H. destruct H as [H Hl].
  apply andb_prop in H. destruct H as [Hs He].
  apply formatted_3f_chars in Hs, He.
  destruct Hs as (x & Fx & Px & Cx), He as (y & Fy & Py & Cy).
  apply label_ok_facts in Hl. destruct Hl as (Lne & Lr & Lt & Ll & Lc).
  exists x, y. split; [assumption|]. split; [assumption|].
  assert (Ts : mem TAB start = false) by (now apply (str_forall_not_mem numeric_char)).
  assert (Te : mem TAB end_ = false) by (now apply (str_forall_not_mem numeric_char)).
  assert (Ns : mem LF start = false) by (now apply (str_forall_not_mem numeric_char)).
  assert (Ne : mem LF end_ = false) by (now apply (str_forall_not_mem numeric_char)).
  assert (Rs : mem CR start = false) by (now apply (str_forall_not_mem numeric_char)).
  assert (Re : mem CR end_ = false) by (now apply (str_forall_not_mem numeric_char)).
  repeat split.
  - unfold Ann.audacity_record, marker_line.
    replace (start ++ tab ++ end_ ++ tab ++ label ++ nl)%string
      with ((start ++ tab ++ end_ ++ tab) ++ label ++ nl)%string
      by (now rewrite !append_assoc).
    rewrite <- (append_assoc _ label nl).
    rewrite rstrip_app_space by reflexivity.
    rewrite rstrip_app_fixed by assumption.
    rewrite !append_assoc. unfold tab. cbn [append].
    rewrite (split_at_first_sep TAB start) by assumption.
    rewrite (split_at_first_sep TAB end_) by assumption.
    rewrite (split_without_sep TAB label) by assumption.
    unfold Ann.py_float. now rewrite Fx, Fy.
  - unfold Ann.audacity_line, marker_line. cbn [Segment.start Segment.end_].
    now rewrite Px, Py.
  - rewrite !mem_app, Ns, Ne, Ll. reflexivity.
  - unfold marker_line. rewrite !mem_app, Rs, Re, Lc. reflexivity.
Qed.

End MarkerText.

(** ** Marker-timeline texts *)

Section RoundTrip.

Lemma join_cons (x : string) (xs : list string) :
  join (x :: xs) = (x ++ join xs)%string.
Proof.
  unfold join. cbn. destruct xs; [now rewrite append_nil_r|reflexivity].
Qed.

Lemma marker_line_body (r : row) :
  let '(start, end_, label) := r in
  marker_line r = ((start ++ tab ++ end_ ++ tab ++ label) ++ nl)%string.
Proof.
  destruct r as [[start end_] label]. unfold marker_line.
  now rewrite !append_assoc.
Qed.

Lemma marker_text_lines (rows : list row) :
  Forall (fun r => row_ok r = true) rows ->
  Ann.readlines (join (map marker_line rows)) = map marker_line rows
  /\ mem CR (join (map marker_line rows)) = false.
Proof.
  induction 1 as [|r rows Hr F IH]; [split; reflexivity|].
  destruct IH as (IHl & IHc). cbn [map]. rewrite join_cons.
  pose proof (audacity_record_marker_line r Hr) as A.
  pose proof (marker_line_body r) as B.
  destruct r as [[start end_] label].
  destruct A as (x & y & _ & _ & _ & _ & Hlf & Hcr). split.
  - rewrite B at 1. rewrite append_assoc.
    rewrite readlines_first_line by assumption.
    now rewrite IHl, <- B.
  - now rewrite mem_app, Hcr, IHc.
Qed.

Lemma append_records_marker_lines (rows : list row) (acc : list record) :
  Forall (fun r => row_ok r = true) rows ->
  exists rs,
    Ann.append_records Ann.audacity_record (map marker_line rows) acc = Ok (acc ++ rs)
    /\ map Ann.audacity_line rs = map marker_line rows
    /\ Forall2 (fun (r : row) (rec : record) =>
                  let '(start, end_, label) := r in
                  exists x y,
                    float_of_string start = Some x /\ float_of_string end_ = Some y
                    /\ rec = (Segment.Segment x y, 1, label))
               rows rs.
Proof.
  intros F. revert acc. induction F as [|r rows Hr F IH]; intros acc.
  - exists []. cbn. rewrite app_nil_r. repeat split. constructor.
  - pose proof (audacity_record_marker_line r Hr) as A.
    destruct r as [[start end_] label].
    destruct A as (x & y & Fx & Fy & Hrec & Hline & _ & _).
    destruct (IH (acc ++ [(Segment.Segment x y, 1, label)])) as (rs & E & Hl & F2).
    exists ((Segment.Segment x y, 1, label) :: rs).
    cbn [map Ann.append_records]. rewrite Hrec. cbn [result_bind].
    split; [|split].
    + etransitivity; [exact E|]. now rewrite <- app_assoc.
    + now rewrite Hline, Hl.
    + constructor; [|assumption]. now exists x, y.
Qed.

End RoundTrip.


(** * Further properties *)

Import Reread.

(** ** Reading back a written number *)

Section ReadBack.

Lemma numeric_char_facts (c : ascii) :
  numeric_char c = true ->
  isspace c = false /\ c_isspace c = false /\ (code c <? 128)%N = true
  /\ Ascii.eqb c "_" = false /\ Ascii.eqb c " " = false.
Proof.
  destruct c as [[] [] [] [] [] [] [] []]; intros H;
    try discriminate H; repeat split; reflexivity.
Qed.

Lemma is_digit_facts (c : ascii) :
  is_digit c = true ->
  numeric_char c = true /\ read_sign (String c EmptyString) = (false, String c EmptyString)
  /\ Ascii.eqb c "." = false /\ Ascii.eqb c "-" = false
  /\ 0 <= digit_val c < 10.
Proof.
  destruct c as [[] [] [] [] [] [] [] []]; intros H;
    try discriminate H; repeat split; try reflexivity; vm_compute; congruence.
Qed.

Lemma read_sign_digit (c : ascii) (r : string) :
  is_digit c = true -> read_sign (String c r) = (false, String c r).
Proof.
  destruct c as [[] [] [] [] [] [] [] []]; intros H;
    try discriminate H; reflexivity.
Qed.

Lemma all_ascii_numeric (s : string) :
  str_forall numeric_char s = true -> all_ascii s = true.
Proof.
  induction s as [|c s IH]; cbn; [reflexivity|].
  intros H. apply andb_prop in H. destruct H as [Hc Hs].
  destruct (numeric_char_facts c Hc) as (_ & _ & -> & _). now apply IH.
Qed.

Lemma c_lstrip_numeric (s : string) :
  str_forall numeric_char s = true -> c_lstrip s = s.
Proof.
  destruct s as [|c s]; cbn; [reflexivity|].
  intros H. apply andb_prop in H. destruct H as [Hc _].
  now destruct (numeric_char_facts c Hc) as (_ & -> & _).
Qed.

Lemma c_rstrip_numeric (s : string) :
  str_forall numeric_char s = true -> c_rstrip s = s.
Proof.
  induction s as [|c s IH]; cbn; [reflexivity|].
  intros H. apply andb_prop in H. destruct H as [Hc Hs].
  rewrite (IH Hs). destruct s; [|reflexivity].
  now destruct (numeric_char_facts c Hc) as (_ & -> & _).
Qed.

Lemma rstrip_numeric (s : string) :
  str_forall numeric_char s = true -> rstrip s = s.
Proof.
  induction s as [|c s IH]; cbn; [reflexivity|].
  intros H. apply andb_prop in H. destruct H as [Hc Hs].
  rewrite (IH Hs). destruct s; [|reflexivity].
  now destruct (numeric_char_facts c Hc) as (-> & _).
Qed.

Lemma span_digits_all (s : string) :
  str_forall is_digit s = true -> span_digits s = (digit_vals s, EmptyString).
Proof.
  induction s as [|c s IH]; cbn; [reflexivity|].
  intros H. apply andb_prop in H. destruct H as [Hc Hs].
  now rewrite Hc, (IH Hs).
Qed.

Lemma span_digits_until (s : string) (c : ascii) (r : string) :
  str_forall is_digit s = true -> is_digit c = false ->
  span_digits (s ++ String c r) = (digit_vals s, String c r).
Proof.
  intros Hs Hc. induction s as [|d s IH]; cbn.
  - now rewrite Hc.
  - cbn in Hs. apply andb_prop in Hs. destruct Hs as [Hd Hs].
    now rewrite Hd, (IH Hs).
Qed.

Lemma digit_vals_app (a b : string) :
  digit_vals (a ++ b) = digit_vals a ++ digit_vals b.
Proof. induction a as [|c a IH]; cbn; [reflexivity|now rewrite IH]. Qed.

Lemma length_digit_vals (s : string) :
  List.length (digit_vals s) = String.length s.
Proof. induction s as [|c s IH]; cbn; [reflexivity|now rewrite IH]. Qed.

(** The value of a digit list read after a number already read. *)
Lemma fold_digits (ds : list Z) (acc : Z) :
  fold_left (fun a d => 10 * a + d) ds acc
  = acc * 10 ^ Z.of_nat (List.length ds) + digits_value ds.
Proof.
  unfold digits_value. revert acc.
  induction ds as [|d ds IH]; intros acc.
  - cbn. lia.
  - cbn [fold_left List.length]. rewrite IH, (IH (10 * 0 + d)).
    rewrite Nat2Z.inj_succ, Z.pow_succ_r by lia. lia.
Qed.

Lemma digits_value_app (a b : list Z) :
  digits_value (a ++ b)
  = digits_value a * 10 ^ Z.of_nat (List.length b) + digits_value b.
Proof.
  unfold digits_value at 1. rewrite fold_left_app.
  fold (digits_value a). apply fold_digits.
Qed.

Lemma digit_val_digit_char (d : Z) :
  0 <= d < 10 -> digit_val (digit_char d) = d.
Proof.
  intros H.
  assert (E : d = 0 \/ d = 1 \/ d = 2 \/ d = 3 \/ d = 4 \/ d = 5 \/ d = 6
              \/ d = 7 \/ d = 8 \/ d = 9) by lia.
  repeat (destruct E as [->|E]; [reflexivity|]). now subst d.
Qed.

Lemma digits_fuel_step (fuel : nat) (n : Z) (acc : string) :
  digits_fuel (S fuel) n acc
  = if n <? 10 then String (digit_char (n mod 10)) acc
    else digits_fuel fuel (n / 10) (String (digit_char (n mod 10)) acc).
Proof. reflexivity. Qed.

(** The digits [digits_fuel] puts before [acc] have the value [n], when
    the fuel covers the digits of [n]. *)
Lemma digits_fuel_value (fuel : nat) (n : Z) (acc : string) :
  0 <= n < 10 ^ Z.of_nat (S fuel) ->
  digits_value (digit_vals (digits_fuel (S fuel) n acc))
  = n * 10 ^ Z.of_nat (String.length acc) + digits_value (digit_vals acc).
Proof.
  revert n acc. induction fuel as [|fuel IH]; intros n acc Hn.
  - assert (n < 10) by (cbn in Hn; lia).
    replace (digits_fuel 1 n acc) with (String (digit_char (n mod 10)) acc)
      by (cbn; now destruct (n <? 10)).
    cbn [digit_vals]. unfold digits_value at 1. cbn [fold_left].
    rewrite fold_digits, length_digit_vals.
    rewrite digit_val_digit_char by (apply Z.mod_pos_bound; lia).
    rewrite Z.mod_small by lia. lia.
  - rewrite digits_fuel_step. destruct (n <? 10) eqn:Hlt.
    + apply Z.ltb_lt in Hlt.
      cbn [digit_vals]. unfold digits_value at 1. cbn [fold_left].
      rewrite fold_digits, length_digit_vals.
      rewrite digit_val_digit_char by (apply Z.mod_pos_bound; lia).
      rewrite Z.mod_small by lia. lia.
    + apply Z.ltb_ge in Hlt.
      assert (Hq : 0 <= n / 10 < 10 ^ Z.of_nat (S fuel)).
      { split; [apply Z.div_pos; lia|].
        apply Z.div_lt_upper_bound; [lia|].
        rewrite <- Z.pow_succ_r by lia. rewrite <- Nat2Z.inj_succ. apply Hn. }
      rewrite (IH (n / 10) _ Hq).
      cbn [String.length digit_vals]. unfold digits_value at 1. cbn [fold_left].
      rewrite fold_digits, length_digit_vals.
      rewrite digit_val_digit_char by (apply Z.mod_pos_bound; lia).
      rewrite Nat2Z.inj_succ, Z.pow_succ_r by lia.
      pose proof (Z.div_mod n 10 ltac:(lia)). lia.
Qed.

Lemma decimal_value (n : Z) :
  0 <= n -> digits_value (digit_vals (decimal n)) = n.
Proof.
  intros Hn. unfold decimal. rewrite digits_fuel_value.
  - cbn. lia.
  - split; [assumption|].
    destruct (Z.eq_dec n 0) as [->|Hz]; [cbn; lia|].
    pose proof (Z.log2_spec n ltac:(lia)) as [_ Hu].
    pose proof (Z.log2_nonneg n).
    rewrite Nat2Z.inj_succ, Z2Nat.id by assumption.
    eapply Z.lt_le_trans; [exact Hu|].
    apply Z.pow_le_mono_l. lia.
Qed.

Lemma three_digits_value (n : Z) :
  0 <= n < 1000 -> digits_value (digit_vals (three_digits n)) = n.
Proof.
  intros Hn. unfold three_digits. cbn [digit_vals]. unfold digits_value. cbn [fold_left].
  rewrite !digit_val_digit_char by (apply Z.mod_pos_bound; lia).
  pose proof (Z.div_mod n 10 ltac:(lia)).
  pose proof (Z.div_mod (n / 10) 10 ltac:(lia)).
  assert (E : n / 100 = n / 10 / 10) by (rewrite Z.div_div by lia; reflexivity).
  assert (n / 100 < 10) by (apply Z.div_lt_upper_bound; lia).
  assert (0 <= n / 100) by (apply Z.div_pos; lia).
  rewrite (Z.mod_small (n / 100)) by lia. lia.
Qed.

Lemma thousandths_nonneg (m : positive) (e : Z) : 0 <= thousandths m e.
Proof.
  unfold thousandths. destruct (0 <=? e) eqn:He.
  - apply Z.leb_le in He. pose proof (Z.pow_nonneg 2 e ltac:(lia)). nia.
  - unfold round_half_even_shift.
    assert (0 <= 1000 * Zpos m / 2 ^ (- e)).
    { apply Z.div_pos; [lia|]. apply Z.pow_pos_nonneg; [lia|].
      apply Z.leb_gt in He. lia. }
    destruct (2 * ((1000 * Zpos m) mod 2 ^ (- e)) ?= 2 ^ (- e));
      [destruct (Z.even _)|..]; lia.
Qed.

Lemma read_decimal_fixed3 (neg : bool) (n : Z) :
  0 <= n -> read_decimal neg (fixed3 n) = Some (of_decimal neg n (-3)).
Proof.
  intros Hn. unfold read_decimal, fixed3.
  destruct (decimal_shape (n / 1000)) as (c & p & E & D).
  destruct (three_digits_shape (n mod 1000)) as (L3 & D3).
  pose proof (decimal_value (n / 1000) ltac:(apply Z.div_pos; lia)) as Vq.
  pose proof (three_digits_value (n mod 1000) ltac:(apply Z.mod_pos_bound; lia)) as Vr.
  rewrite E in *.
  change (String c p ++ "." ++ three_digits (n mod 1000))%string
    with (String c p ++ String "." (three_digits (n mod 1000)))%string.
  rewrite span_digits_until by (assumption || reflexivity).
  cbv beta iota zeta. rewrite span_digits_all by assumption.
  cbv beta iota zeta.
  destruct (digit_vals (String c p) ++ digit_vals (three_digits (n mod 1000)))
    as [|d ds] eqn:Eds; [discriminate Eds|].
  rewrite <- Eds. cbn [read_exponent].
  rewrite digits_value_app, !length_digit_vals, L3, Vq, Vr.
  f_equal. f_equal.
  change (10 ^ Z.of_nat 3) with 1000.
  pose proof (Z.div_mod n 1000 ltac:(lia)). lia.
Qed.

(** [float] accepts the [.3f] text of every float and returns
    [read_back] of it. *)
Lemma float_of_string_format_3f (x : float) :
  float_of_string (format_3f x) = Some (read_back x).
Proof.
  destruct x as [s|s| |s m e];
    [destruct s; vm_compute; reflexivity
    |destruct s; vm_compute; reflexivity
    |vm_compute; reflexivity
    |].
  pose proof (format_3f_chars (S754_finite s m e)) as Hc.
  unfold float_of_string, transform_decimal_and_space, with_underscores.
  rewrite (all_ascii_numeric _ Hc).
  rewrite (str_forall_not_mem numeric_char "_" _ eq_refl Hc).
  rewrite (c_lstrip_numeric _ Hc), (c_rstrip_numeric _ Hc).
  cbn [format_3f read_back] in *.
  pose proof (thousandths_nonneg m e) as Hn.
  destruct s.
  - cbn [append read_sign]. now rewrite read_decimal_fixed3.
  - cbn [append].
    assert (HF : exists c r, fixed3 (thousandths m e) = String c r
                             /\ is_digit c = true).
    { unfold fixed3.
      destruct (decimal_shape (thousandths m e / 1000)) as (c & p & E & D).
      rewrite E. cbn [append]. cbn in D. apply andb_prop in D.
      destruct D as [Dc _]. eauto. }
    destruct HF as (c & r & HF & Dc).
    rewrite HF, (read_sign_digit c r Dc), <- HF.
    now rewrite read_decimal_fixed3.
Qed.

End ReadBack.

(** ** The lines of a written text *)

Section WrittenLines.

Lemma one_line_facts (s : string) :
  one_line s = true -> mem LF s = false /\ mem CR s = false.
Proof.
  unfold one_line. intros H. apply andb_prop in H. destruct H as [H1 H2].
  now rewrite negb_true_iff in H1, H2.
Qed.

Lemma one_line_app (a b : string) :
  one_line (a ++ b) = one_line a && one_line b.
Proof.
  unfold one_line. rewrite !mem_app.
  destruct (mem LF a), (mem LF b), (mem CR a), (mem CR b); reflexivity.
Qed.

Lemma numeric_one_line (s : string) :
  str_forall numeric_char s = true -> one_line s = true.
Proof.
  intros H. unfold one_line.
  now rewrite (str_forall_not_mem numeric_char LF s eq_refl H),
              (str_forall_not_mem numeric_char CR s eq_refl H).
Qed.

(** A text made of terminated lines without inner line breaks is read as
    those lines. *)
Lemma lines_of_terminated (bodies : list string) :
  Forall (fun b => one_line b = true) bodies ->
  lines_of (join (map (fun b => b ++ nl)%string bodies))
  = map (fun b => b ++ nl)%string bodies.
Proof.
  unfold lines_of. intros F.
  assert (C : mem CR (join (map (fun b => b ++ nl)%string bodies)) = false).
  { induction F as [|b bs Hb F IH]; [reflexivity|].
    cbn [map]. rewrite join_cons, !mem_app, IH.
    destruct (one_line_facts b Hb) as (_ & ->). reflexivity. }
  rewrite universal_newlines_without_cr by assumption. clear C.
  induction F as [|b bs Hb F IH]; [reflexivity|].
  cbn [map]. rewrite join_cons, append_assoc.
  destruct (one_line_facts b Hb) as (Hlf & _).
  now rewrite readlines_first_line, IH.
Qed.

Lemma split_nonempty (sep : ascii) (s : string) :
  split sep s = hd EmptyString (split sep s) :: tl (split sep s).
Proof.
  destruct s as [|c r]; cbn; [reflexivity|].
  destruct (Ascii.eqb c sep); [reflexivity|].
  now destruct (split sep r).
Qed.

Lemma hd_split_app (sep : ascii) (a b : string) :
  hd EmptyString (split sep (a ++ String sep b)) = hd EmptyString (split sep a).
Proof.
  induction a as [|c a IH]; cbn.
  - now rewrite Ascii.eqb_refl.
  - destruct (Ascii.eqb c sep); [reflexivity|].
    rewrite (split_nonempty sep (a ++ String sep b)), (split_nonempty sep a).
    cbn. now rewrite IH.
Qed.

End WrittenLines.

(** ** Reading back what [to_rttm] wrote *)

Section RttmReread.

Lemma format_3f_no_space (x : float) : mem " " (format_3f x) = false.
Proof. exact (str_forall_not_mem numeric_char " " _ eq_refl (format_3f_chars x)). Qed.

(** The tokens of a written RTTM line whose uri holds no space. *)
Lemma rttm_tokens_written (U S D label : string) :
  mem " " U = false -> mem " " S = false -> mem " " D = false ->
  rttm_tokens ("SPEAKER " ++ U ++ " 1 " ++ S ++ " " ++ D ++ " <NA> <NA> "
                 ++ label ++ " <NA>" ++ nl)
  = "SPEAKER" :: U :: "1" :: S :: D :: "<NA>" :: "<NA>"
      :: first_word label :: tl (split " " (label ++ " <NA>")).
Proof.
  intros HU HS HD. unfold rttm_tokens.
  replace ("SPEAKER " ++ U ++ " 1 " ++ S ++ " " ++ D ++ " <NA> <NA> "
             ++ label ++ " <NA>" ++ nl)%string
    with ((("SPEAKER " ++ U ++ " 1 " ++ S ++ " " ++ D ++ " <NA> <NA> " ++ label)
             ++ " <NA>") ++ nl)%string
    by (repeat first [rewrite !append_assoc | progress cbn [append]]; reflexivity).
  rewrite rstrip_app_space by reflexivity.
  rewrite rstrip_app_fixed by (reflexivity || discriminate).
  replace (("SPEAKER " ++ U ++ " 1 " ++ S ++ " " ++ D ++ " <NA> <NA> " ++ label)
             ++ " <NA>")%string
    with ("SPEAKER" ++ String " " (U ++ String " " ("1" ++ String " " (S ++ String " "
            (D ++ String " " ("<NA>" ++ String " " ("<NA>" ++ String " "
               (label ++ String " " "<NA>"))))))))%string
    by (repeat first [rewrite !append_assoc | progress cbn [append]]; reflexivity).
  rewrite (split_at_first_sep " " "SPEAKER") by reflexivity.
  rewrite (split_at_first_sep " " U) by assumption.
  rewrite (split_at_first_sep " " "1") by reflexivity.
  rewrite (split_at_first_sep " " S) by assumption.
  rewrite (split_at_first_sep " " D) by assumption.
  rewrite (split_at_first_sep " " "<NA>") by reflexivity.
  rewrite (split_at_first_sep " " "<NA>") by reflexivity.
  rewrite (split_nonempty " " (label ++ String " " "<NA>")).
  unfold first_word. now rewrite hd_split_app.
Qed.

(** Reading the line [to_rttm] wrote for a record. *)
Lemma rttm_record_written (u : option string) (r : record) :
  mem " " (Ann.str_optional u) = false ->
  Ann.rttm_record (Ann.rttm_line u r) = Ok (reread_rttm r).
Proof.
  intros HU. destruct r as [[segment track] label].
  unfold Ann.rttm_record. fold (rttm_tokens (Ann.rttm_line u (segment, track, label))).
  unfold Ann.rttm_line.
  rewrite rttm_tokens_written by (assumption || apply format_3f_no_space).
  cbn [Ann.getitem nth_error result_bind]. unfold Ann.py_float.
  rewrite !float_of_string_format_3f. cbn [result_bind].
  reflexivity.
Qed.

End RttmReread.

Section RereadLoops.

(** Chunks that are each one terminated line are read as themselves. *)
Lemma lines_of_chunks (chunks : list string) :
  Forall (fun c => exists b, c = (b ++ nl)%string /\ one_line b = true) chunks ->
  lines_of (join chunks) = chunks.
Proof.
  intros F.
  assert (E : exists bodies,
             chunks = map (fun b => b ++ nl)%string bodies
             /\ Forall (fun b => one_line b = true) bodies).
  { induction F as [|c cs (b & -> & Hb) F (bs & -> & Fb)].
    - exists []. split; [reflexivity|constructor].
    - exists (b :: bs). split; [reflexivity|now constructor]. }
  destruct E as (bodies & -> & Fb). now apply lines_of_terminated.
Qed.

(** Reading lines that each parse gives the records in order. *)
Lemma append_records_written {A : Type} (parse : string -> result record)
    (write : A -> string) (back : A -> record) (xs : list A) (acc : list record) :
  Forall (fun x => parse (write x) = Ok (back x)) xs ->
  Ann.append_records parse (map write xs) acc = Ok (acc ++ map back xs).
Proof.
  intros F. revert acc. induction F as [|x xs Hx F IH]; intros acc; cbn.
  - now rewrite app_nil_r.
  - rewrite Hx. cbn [result_bind]. rewrite IH, <- app_assoc. reflexivity.
Qed.

(** An error of the loop is the error of one of its lines. *)
Lemma append_records_raise_from (parse : string -> result record)
    (lines : list string) (acc : list record) (e : exn) :
  Ann.append_records parse lines acc = Raise e ->
  exists line, In line lines /\ parse line = Raise e.
Proof.
  revert acc. induction lines as [|l ls IH]; intros acc; cbn; [discriminate|].
  destruct (parse l) as [r|e'] eqn:E; cbn [result_bind].
  - intros H. destruct (IH _ H) as (line & Hin & Hl). exists line. auto.
  - intros H. injection H as <-. exists l. auto.
Qed.

(** The first line that raises ends the loop with its error. *)
Lemma append_records_first_failure (parse : string -> result record)
    (good : list string) (bad : string) (rest : list string)
    (acc : list record) (e : exn) :
  Forall (fun l => exists r, parse l = Ok r) good ->
  parse bad = Raise e ->
  Ann.append_records parse (good ++ bad :: rest) acc = Raise e.
Proof.
  intros F Hb. revert acc. induction F as [|l ls (r & Hr) F IH]; intros acc; cbn.
  - now rewrite Hb.
  - rewrite Hr. cbn [result_bind]. apply IH.
Qed.

(** The loop started with records already collected. *)
Lemma append_records_acc (parse : string -> result record)
    (lines : list string) (acc : list record) :
  Ann.append_records parse lines acc
  = match Ann.append_records parse lines [] with
    | Ok rs => Ok (acc ++ rs)
    | Raise e => Raise e
    end.
Proof.
  revert acc. induction lines as [|l ls IH]; intros acc; cbn.
  - now rewrite app_nil_r.
  - destruct (parse l) as [r|e]; cbn [result_bind]; [|reflexivity].
    rewrite (IH (acc ++ [r])), (IH [r]).
    destruct (Ann.append_records parse ls []); [|reflexivity].
    now rewrite <- app_assoc.
Qed.

Lemma append_records_app (parse : string -> result record)
    (xs ys : list string) (acc : list record) :
  Ann.append_records parse (xs ++ ys) acc
  = match Ann.append_records parse xs acc with
    | Ok rs => Ann.append_records parse ys rs
    | Raise e => Raise e
    end.
Proof.
  revert acc. induction xs as [|l ls IH]; intros acc; cbn; [reflexivity|].
  destruct (parse l) as [r|e]; cbn [result_bind]; [apply IH|reflexivity].
Qed.

End RereadLoops.

(** X1.  [float] accepts the [.3f] text of every float the serializers
    can write; infinities, nan and zeros come back as they are, and a
    finite value comes back as the binary64 nearest to the written
    three-decimal number. *)
Theorem X1_written_number_reads_back :
  forall x : float,
    float_of_string (format_3f x)
    = Some match x with
           | S754_finite s m e => of_decimal s (thousandths m e) (-3)
           | _ => x
           end.
Proof.
  intros x.
  destruct x as [s|s| |s m e];
    [destruct s; vm_compute; reflexivity
    |destruct s; vm_compute; reflexivity
    |vm_compute; reflexivity
    |].
  pose proof (format_3f_chars (S754_finite s m e)) as Hc.
  unfold float_of_string, transform_decimal_and_space, with_underscores.
  rewrite (all_ascii_numeric _ Hc).
  rewrite (str_forall_not_mem numeric_char "_" _ eq_refl Hc).
  rewrite (c_lstrip_numeric _ Hc), (c_rstrip_numeric _ Hc).
  cbn [format_3f] in *.
  pose proof (thousandths_nonneg m e) as Hn.
  destruct s.
  - cbn [append read_sign]. now rewrite read_decimal_fixed3.
  - cbn [append].
    destruct (decimal_shape (thousandths m e / 1000)) as (c & p & E & D).
    cbn in D. apply andb_prop in D. destruct D as [Dc _].
    assert (HF : fixed3 (thousandths m e)
                 = String c (p ++ "." ++ three_digits (thousandths m e mod 1000))).
    { unfold fixed3. now rewrite E. }
    rewrite HF, (read_sign_digit c _ Dc), <- HF.
    now rewrite read_decimal_fixed3.
Qed.

(** X2.  What [to_rttm] writes into an empty file for an annotation whose
    uri holds no space and whose uri and labels hold no line break is
    read by [from_rttm] without error: one record per record, in order,
    with every track id 1, every label cut at its first space, the start
    read back from its [.3f] text and the end recomputed as that start
    plus the duration read back. *)
Theorem X2_rttm_output_reads_back :
  forall (a : Annotation) (u m : option string),
    mem " " (Ann.str_optional (uri a)) = false ->
    one_line (Ann.str_optional (uri a)) = true ->
    Forall (fun r : record => one_line (snd r) = true) (segment_list a) ->
    Ann.from_rttm (lines_of (join (file (exec Ann.to_rttm (mkWorld a [])))))
                  u m
    = Ok (mkAnnotation
            (map (fun '(segment, _, label) =>
                    let start := read_back (Segment.start segment) in
                    (Segment.Segment start
                       (fadd start (read_back (Segment.duration segment))),
                     1, hd EmptyString (split " " label)))
                 (segment_list a))
            u m).
Proof.
  intros a u m HU HL F.
  unfold exec. rewrite to_rttm_run. cbn [snd file self app].
  rewrite lines_of_chunks.
  - unfold Ann.from_rttm.
    rewrite (append_records_written Ann.rttm_record (Ann.rttm_line (uri a)) reread_rttm).
    + cbn [result_bind app]. reflexivity.
    + apply Forall_forall. intros r _. now apply rttm_record_written.
  - apply Forall_map. eapply Forall_impl; [|exact F].
    intros [[segment track] label] Hl. cbn [snd] in Hl.
    exists ("SPEAKER " ++ Ann.str_optional (uri a) ++ " 1 "
              ++ format_3f (Segment.start segment) ++ " "
              ++ format_3f (Segment.duration segment)
              ++ " <NA> <NA> " ++ label ++ " <NA>")%string.
    split.
    + unfold Ann.rttm_line.
      repeat first [rewrite !append_assoc | progress cbn [append]]; reflexivity.
    + rewrite !one_line_app, HL, Hl.
      now rewrite !(numeric_one_line _ (format_3f_chars _)).
Qed.

Lemma X2_rttm_output_reads_back_witness :
  let a := mkAnnotation [(Segment.Segment float_1 float_2, 7, "spk A")] (Some "file1") None in
  Ann.from_rttm (lines_of (join (file (exec Ann.to_rttm (mkWorld a []))))) None None
  = Ok (mkAnnotation [(Segment.Segment float_1 float_2, 1, "spk")] None None).
Proof.
  apply (X2_rttm_output_reads_back
           (mkAnnotation [(Segment.Segment float_1 float_2, 7, "spk A")] (Some "file1") None)
           None None); [reflexivity|reflexivity|].
  constructor; [reflexivity|constructor].
Defined.

(** ** Reading back what [to_audacity] returned *)

Section AudacityReread.

Lemma format_3f_nonempty (x : float) : format_3f x <> EmptyString.
Proof.
  destruct x as [s|s| |s m e]; try (destruct s; discriminate); try discriminate.
  cbn [format_3f]. unfold fixed3.
  destruct (decimal_shape (thousandths m e / 1000)) as (c & p & -> & _).
  destruct s; discriminate.
Qed.

Lemma rstrip_empty (s : string) :
  rstrip s = EmptyString -> str_forall isspace s = true.
Proof.
  induction s as [|c s IH]; cbn; [reflexivity|].
  destruct (rstrip s) eqn:E; [|discriminate].
  destruct (isspace c); [|discriminate]. intros _. now apply IH.
Qed.

(** The fields of a yielded line whose label survives reading. *)
Lemma audacity_fields_written (S E label : string) :
  str_forall numeric_char S = true -> str_forall numeric_char E = true ->
  label_ok label = true ->
  audacity_fields (S ++ tab ++ E ++ tab ++ label ++ nl) = [S; E; label].
Proof.
  intros HS HE Hl. unfold audacity_fields.
  apply label_ok_facts in Hl. destruct Hl as (Lne & Lr & Lt & _ & _).
  replace (S ++ tab ++ E ++ tab ++ label ++ nl)%string
    with (((S ++ tab ++ E ++ tab) ++ label) ++ nl)%string
    by (now rewrite !append_assoc).
  rewrite rstrip_app_space by reflexivity.
  rewrite rstrip_app_fixed by assumption.
  rewrite !append_assoc. unfold tab. cbn [append].
  rewrite (split_at_first_sep TAB S)
    by (exact (str_forall_not_mem numeric_char TAB S eq_refl HS)).
  rewrite (split_at_first_sep TAB E)
    by (exact (str_forall_not_mem numeric_char TAB E eq_refl HE)).
  now rewrite (split_without_sep TAB label).
Qed.

(** The fields of a yielded line whose label is blank: the label and its
    tab are gone. *)
Lemma audacity_fields_blank_label (S E label : string) :
  str_forall numeric_char S = true -> str_forall numeric_char E = true ->
  E <> EmptyString -> rstrip label = EmptyString ->
  audacity_fields (S ++ tab ++ E ++ tab ++ label ++ nl) = [S; E].
Proof.
  intros HS HE Ene Hl. unfold audacity_fields.
  replace (S ++ tab ++ E ++ tab ++ label ++ nl)%string
    with (((S ++ tab) ++ E) ++ (tab ++ label ++ nl))%string
    by (now rewrite !append_assoc).
  rewrite rstrip_app_space
    by (rewrite !str_forall_app, (rstrip_empty label Hl); reflexivity).
  rewrite rstrip_app_fixed by (assumption || now apply rstrip_numeric).
  rewrite append_assoc. unfold tab. cbn [append].
  rewrite (split_at_first_sep TAB S)
    by (exact (str_forall_not_mem numeric_char TAB S eq_refl HS)).
  now rewrite (split_without_sep TAB E)
    by (exact (str_forall_not_mem numeric_char TAB E eq_refl HE)).
Qed.

Lemma audacity_record_written (r : record) :
  label_ok (snd r) = true ->
  Ann.audacity_record (Ann.audacity_line r) = Ok (reread_audacity r).
Proof.
  destruct r as [[segment track] label]. cbn [snd]. intros Hl.
  unfold Ann.audacity_record. fold (audacity_fields (Ann.audacity_line (segment, track, label))).
  unfold Ann.audacity_line.
  rewrite audacity_fields_written by (assumption || apply format_3f_chars).
  unfold Ann.py_float. rewrite !float_of_string_format_3f. reflexivity.
Qed.

Lemma audacity_record_blank_label (r : record) :
  rstrip (snd r) = EmptyString ->
  Ann.audacity_record (Ann.audacity_line r) = Raise ValueError.
Proof.
  destruct r as [[segment track] label]. cbn [snd]. intros Hl.
  unfold Ann.audacity_record. fold (audacity_fields (Ann.audacity_line (segment, track, label))).
  unfold Ann.audacity_line.
  now rewrite audacity_fields_blank_label
    by (assumption || apply format_3f_chars || apply format_3f_nonempty).
Qed.

Lemma audacity_record_only_value_error (line : string) (e : exn) :
  Ann.audacity_record line = Raise e -> e = ValueError.
Proof.
  unfold Ann.audacity_record, Ann.py_float, result_bind.
  destruct (split TAB (rstrip line)) as [|s [|e' [|label [|extra more]]]];
    try (intros H; now injection H as <-).
  destruct (float_of_string s); [|intros H; now injection H as <-].
  destruct (float_of_string e'); [discriminate|intros H; now injection H as <-].
Qed.

(** The lines [_iter_audacity] yields are read as themselves when no
    label holds a line break. *)
Lemma lines_of_audacity_lines (rs : list record) :
  Forall (fun r : record => one_line (snd r) = true) rs ->
  lines_of (join (map Ann.audacity_line rs)) = map Ann.audacity_line rs.
Proof.
  intros F. apply lines_of_chunks. apply Forall_map.
  eapply Forall_impl; [|exact F].
  intros [[segment track] label] Hl. cbn [snd] in Hl.
  exists (format_3f (Segment.start segment) ++ tab
            ++ format_3f (Segment.end_ segment) ++ tab ++ label)%string.
  split.
  - unfold Ann.audacity_line. now rewrite !append_assoc.
  - rewrite !one_line_app, Hl.
    now rewrite !(numeric_one_line _ (format_3f_chars _)).
Qed.

Lemma label_ok_one_line (label : string) :
  label_ok label = true -> one_line label = true.
Proof.
  intros H. apply label_ok_facts in H. destruct H as (_ & _ & _ & Hlf & Hcr).
  unfold one_line. now rewrite Hlf, Hcr.
Qed.

End AudacityReread.

(** X3.  The text [to_audacity] returns for an annotation whose labels
    are not empty, hold no tab or line break and do not end in
    whitespace is read by [from_audacity] without error: one record per
    record, in order, with every track id 1, the same labels, and start
    and end read back from their [.3f] texts. *)
Theorem X3_audacity_output_reads_back :
  forall (a : Annotation) (fs : filesystem) (audacity_file : string)
         (u m : option string),
    Forall (fun r : record => label_ok (snd r) = true) (segment_list a) ->
    fs audacity_file = Some (eval Ann.to_audacity (mkWorld a [])) ->
    Ann.from_audacity fs audacity_file u m
    = Ok (mkAnnotation
            (map (fun '(segment, _, label) =>
                    (Segment.Segment (read_back (Segment.start segment))
                                     (read_back (Segment.end_ segment)),
                     1, label))
                 (segment_list a))
            u m).
Proof.
  intros a fs audacity_file u m F Hfs.
  unfold Ann.from_audacity, Ann.open_lines. rewrite Hfs.
  unfold eval. rewrite to_audacity_run. cbn [fst self result_bind].
  fold (lines_of (join (map Ann.audacity_line (segment_list a)))).
  rewrite lines_of_audacity_lines
    by (eapply Forall_impl; [|exact F]; intros r; apply label_ok_one_line).
  rewrite (append_records_written Ann.audacity_record Ann.audacity_line reread_audacity).
  - cbn [result_bind app]. reflexivity.
  - eapply Forall_impl; [|exact F]. intros r. apply audacity_record_written.
Qed.

Lemma X3_audacity_output_reads_back_witness :
  let a := mkAnnotation [(Segment.Segment float_1 float_2, 7, "spk A")] (Some "file1") None in
  Ann.from_audacity (fun _ => Some (eval Ann.to_audacity (mkWorld a []))) "labels.txt" None None
  = Ok (mkAnnotation [(Segment.Segment float_1 float_2, 1, "spk A")] None None).
Proof.
  apply (X3_audacity_output_reads_back
           (mkAnnotation [(Segment.Segment float_1 float_2, 7, "spk A")] (Some "file1") None)
           (fun _ => Some _) "labels.txt" None None); [|reflexivity].
  constructor; [reflexivity|constructor].
Defined.

(** X4.  When some record of an annotation has an empty label, or a
    label made of whitespace only, [from_audacity] cannot read the text
    [to_audacity] returns for it: it raises [ValueError] (the labels
    holding no line break). *)
Theorem X4_blank_label_is_not_read_back :
  forall (a : Annotation) (fs : filesystem) (audacity_file : string)
         (u m : option string),
    Forall (fun r : record => one_line (snd r) = true) (segment_list a) ->
    Exists (fun r : record => rstrip (snd r) = EmptyString) (segment_list a) ->
    fs audacity_file = Some (eval Ann.to_audacity (mkWorld a [])) ->
    Ann.from_audacity fs audacity_file u m = Raise ValueError.
Proof.
  intros a fs audacity_file u m F X Hfs.
  unfold Ann.from_audacity, Ann.open_lines. rewrite Hfs.
  unfold eval. rewrite to_audacity_run. cbn [fst self result_bind].
  fold (lines_of (join (map Ann.audacity_line (segment_list a)))).
  rewrite lines_of_audacity_lines by assumption.
  pose proof (append_records_spec Ann.audacity_record audacity_line_ok
                audacity_record_ok audacity_record_raise
                (map Ann.audacity_line (segment_list a)) []) as H.
  destruct (Ann.append_records Ann.audacity_record
              (map Ann.audacity_line (segment_list a)) []) as [out|e] eqn:E.
  - exfalso. destruct H as (Fok & _).
    apply Exists_exists in X. destruct X as (r & Hin & Hr).
    rewrite Forall_forall in Fok.
    specialize (Fok (Ann.audacity_line r) (in_map _ _ _ Hin)).
    pose proof (audacity_record_cases (Ann.audacity_line r)) as C.
    rewrite (audacity_record_blank_label r Hr) in C. destruct C as (C & _).
    congruence.
  - cbn [result_bind].
    destruct (append_records_raise_from _ _ _ _ E) as (line & _ & Hl).
    now rewrite (audacity_record_only_value_error line e Hl).
Qed.

Lemma X4_blank_label_is_not_read_back_witness :
  let a := mkAnnotation [(Segment.Segment float_1 float_2, 1, "")] None None in
  Ann.from_audacity (fun _ => Some (eval Ann.to_audacity (mkWorld a []))) "labels.txt" None None
  = Raise ValueError.
Proof.
  apply (X4_blank_label_is_not_read_back
           (mkAnnotation [(Segment.Segment float_1 float_2, 1, "")] None None)
           (fun _ => Some _) "labels.txt" None None); [| |reflexivity].
  - constructor; [reflexivity|constructor].
  - apply Exists_cons_hd. reflexivity.
Defined.

(** ** Errors of the readers *)

Section ReaderErrors.

Lemma nth_error_token (tokens : list string) (i : nat) :
  (i < List.length tokens)%nat -> nth_error tokens i = Some (token tokens i).
Proof. intros H. unfold token. now apply nth_error_nth'. Qed.

(** With at least 8 tokens no index is out of range: the record depends
    on tokens 2, 3, 4 and 7 only. *)
Lemma rttm_record_long (line : string) :
  (8 <= List.length (rttm_tokens line))%nat ->
  Ann.rttm_record line
  = (start <- Ann.py_float (token (rttm_tokens line) 3) ;;
     a <- Ann.py_float (token (rttm_tokens line) 3) ;;
     b <- Ann.py_float (token (rttm_tokens line) 4) ;;
     track <- Ann.py_int (token (rttm_tokens line) 2) ;;
     Ok (Segment.Segment start (fadd a b), track, token (rttm_tokens line) 7))%result.
Proof.
  intros H. unfold Ann.rttm_record. fold (rttm_tokens line).
  unfold Ann.getitem.
  rewrite !nth_error_token by lia. cbn [result_bind].
  destruct (Ann.py_float _); cbn [result_bind]; [|reflexivity].
  destruct (Ann.py_float _); cbn [result_bind]; [|reflexivity].
  destruct (Ann.py_int _); reflexivity.
Qed.

Lemma rttm_record_long_error (line : string) (e : exn) :
  (8 <= List.length (rttm_tokens line))%nat ->
  Ann.rttm_record line = Raise e -> e = ValueError.
Proof.
  intros H. rewrite (rttm_record_long line H).
  unfold Ann.py_float, Ann.py_int, result_bind.
  repeat match goal with
         | |- context [float_of_string ?t] => destruct (float_of_string t)
         | |- context [int_of_string ?t] => destruct (int_of_string t)
         end; intros E; try discriminate E; now injection E as <-.
Qed.

Lemma rttm_record_short (line : string) :
  (List.length (rttm_tokens line) <= 3)%nat ->
  Ann.rttm_record line = Raise IndexError.
Proof.
  intros H. unfold Ann.rttm_record. fold (rttm_tokens line).
  unfold Ann.getitem.
  now replace (nth_error (rttm_tokens line) 3) with (@None string)
    by (symmetry; apply nth_error_None; lia).
Qed.

Lemma rttm_line_ok_parses (line : string) :
  rttm_line_ok line = true -> exists r, Ann.rttm_record line = Ok r.
Proof.
  intros H. pose proof (rttm_record_cases line) as C.
  destruct (Ann.rttm_record line) as [r|e]; [now exists r|].
  destruct C as (C & _). congruence.
Qed.

Lemma rttm_line_bad_raises (line : string) :
  rttm_line_ok line = false -> exists e, Ann.rttm_record line = Raise e.
Proof.
  intros H. pose proof (rttm_record_cases line) as C.
  destruct (Ann.rttm_record line) as [r|e]; [|now exists e].
  destruct C as (C & _). congruence.
Qed.

Lemma from_rttm_single (line : string) (u m : option string) :
  Ann.from_rttm [line] u m
  = match Ann.rttm_record line with
    | Ok r => Ok (mkAnnotation [r] u m)
    | Raise e => Raise e
    end.
Proof.
  unfold Ann.from_rttm. cbn. now destruct (Ann.rttm_record line).
Qed.

End ReaderErrors.

(** X5.  [from_rttm] stops at the first line it cannot read, with the
    error of that line, whatever the lines after it are: [IndexError]
    when that line has at most 3 tokens (a blank line has one),
    [ValueError] when it has at least 8. *)
Theorem X5_first_bad_rttm_line_decides :
  forall (good : list string) (bad : string) (rest : list string)
         (u m : option string),
    Forall (fun line => rttm_line_ok line = true) good ->
    rttm_line_ok bad = false ->
    exists e,
      Ann.from_rttm (good ++ bad :: rest) u m = Raise e
      /\ Ann.from_rttm [bad] u m = Raise e
      /\ ((List.length (rttm_tokens bad) <= 3)%nat -> e = IndexError)
      /\ ((8 <= List.length (rttm_tokens bad))%nat -> e = ValueError).
Proof.
  intros good bad rest u m F Hb.
  destruct (rttm_line_bad_raises bad Hb) as (e & He).
  exists e. repeat split.
  - unfold Ann.from_rttm.
    rewrite (append_records_first_failure Ann.rttm_record good bad rest [] e);
      [reflexivity| |assumption].
    eapply Forall_impl; [|exact F]. apply rttm_line_ok_parses.
  - now rewrite from_rttm_single, He.
  - intros H. rewrite (rttm_record_short bad H) in He. now injection He as <-.
  - intros H. exact (rttm_record_long_error bad e H He).
Qed.

Lemma X5_first_bad_rttm_line_decides_witness :
  exists e,
    Ann.from_rttm ([scenario_rttm_line] ++ "" :: ["not read"]) None None = Raise e
    /\ Ann.from_rttm [""] None None = Raise e
    /\ ((List.length (rttm_tokens "") <= 3)%nat -> e = IndexError)
    /\ ((8 <= List.length (rttm_tokens ""))%nat -> e = ValueError).
Proof.
  apply (X5_first_bad_rttm_line_decides [scenario_rttm_line] "" ["not read"] None None).
  - constructor; [vm_compute; reflexivity|constructor].
  - reflexivity.
Defined.

(** X6.  [from_rttm] on two sequences of lines put one after the other
    fails as the first one does, else as the second one does, and
    otherwise gives the records of the first followed by the records of
    the second. *)
Theorem X6_from_rttm_concatenation :
  forall (xs ys : list string) (u m : option string),
    Ann.from_rttm (xs ++ ys) u m
    = match Ann.from_rttm xs u m with
      | Raise e => Raise e
      | Ok a =>
          match Ann.from_rttm ys u m with
          | Raise e => Raise e
          | Ok b => Ok (mkAnnotation (segment_list a ++ segment_list b) u m)
          end
      end.
Proof.
  intros xs ys u m. unfold Ann.from_rttm.
  rewrite append_records_app.
  destruct (Ann.append_records Ann.rttm_record xs []) as [rs|e];
    cbn [result_bind]; [|reflexivity].
  rewrite append_records_acc.
  now destruct (Ann.append_records Ann.rttm_record ys []).
Qed.

(** X7.  Of a line with at least 8 tokens [from_rttm] uses tokens 2, 3,
    4 and 7 only: two such lines that agree on these four tokens give
    the same result, record or error. *)
Theorem X7_from_rttm_uses_four_tokens :
  forall (line line' : string) (u m : option string),
    (8 <= List.length (rttm_tokens line))%nat ->
    (8 <= List.length (rttm_tokens line'))%nat ->
    token (rttm_tokens line) 2 = token (rttm_tokens line') 2 ->
    token (rttm_tokens line) 3 = token (rttm_tokens line') 3 ->
    token (rttm_tokens line) 4 = token (rttm_tokens line') 4 ->
    token (rttm_tokens line) 7 = token (rttm_tokens line') 7 ->
    Ann.from_rttm [line] u m = Ann.from_rttm [line'] u m.
Proof.
  intros line line' u m H H' E2 E3 E4 E7.
  rewrite !from_rttm_single, (rttm_record_long line H), (rttm_record_long line' H').
  now rewrite E2, E3, E4, E7.
Qed.

Lemma X7_from_rttm_uses_four_tokens_witness :
  Ann.from_rttm [scenario_rttm_line] None None
  = Ann.from_rttm ["LEXEME other 1 10.000 2.500 a b spk1 0.9 more"] None None.
Proof.
  apply X7_from_rttm_uses_four_tokens; try reflexivity; vm_compute; lia.
Defined.


(** ** The duration field *)

Section DurationField.

Lemma above_is_positive (m0 : positive) (e0 : Z) (d : float) :
  SFltb (S754_finite false m0 e0) d = true ->
  match d with
  | S754_infinity false | S754_finite false _ _ => True
  | _ => False
  end.
Proof.
  unfold SFltb.
  destruct d as [s|s| |s m e]; cbn [SFcompare]; try discriminate;
    destruct s; try discriminate; intros _; exact I.
Qed.

Lemma duration_class (segment : Segment.t) :
  match Segment.duration segment with
  | S754_zero false | S754_infinity false | S754_finite false _ _ => True
  | _ => False
  end.
Proof.
  unfold Segment.duration, Segment.__bool__, fgt, Segment.SEGMENT_PRECISION.
  destruct (SFltb _ (fsub (Segment.end_ segment) (Segment.start segment))) eqn:H;
    [|exact I].
  apply above_is_positive in H.
  destruct (fsub (Segment.end_ segment) (Segment.start segment)) as [s|s| |s m e];
    try contradiction; destruct s; try contradiction; exact I.
Qed.

Lemma fixed3_chars (n : Z) :
  str_forall (fun c => is_digit c || Ascii.eqb c ".") (fixed3 n) = true.
Proof.
  unfold fixed3.
  destruct (decimal_shape (n / 1000)) as (c & p & -> & D).
  destruct (three_digits_shape (n mod 1000)) as (_ & D3).
  assert (I : forall c, is_digit c = true -> is_digit c || Ascii.eqb c "." = true).
  { intros c0 H. now rewrite H. }
  rewrite !str_forall_app.
  now rewrite (str_forall_impl _ _ _ I D), (str_forall_impl _ _ _ I D3).
Qed.

Lemma fixed3_not_nan (n : Z) : fixed3 n <> "nan".
Proof.
  pose proof (fixed3_chars n) as H. intros E. rewrite E in H. discriminate H.
Qed.

(** The duration of a segment is never written with a minus sign, and
    never as [nan]. *)
Lemma duration_text (segment : Segment.t) :
  mem "-" (format_3f (Segment.duration segment)) = false
  /\ format_3f (Segment.duration segment) <> "nan".
Proof.
  pose proof (duration_class segment) as C.
  destruct (Segment.duration segment) as [s|s| |s m e]; try contradiction;
    destruct s; try contradiction; cbn [format_3f append].
  - split; [reflexivity|discriminate].
  - split; [reflexivity|discriminate].
  - split; [|apply fixed3_not_nan].
    exact (str_forall_not_mem _ "-" _ eq_refl (fixed3_chars _)).
Qed.

End DurationField.

(** X9.  The duration field of a line [to_rttm] writes never holds a
    minus sign and is never [nan], whatever the start and the end of the
    segment are. *)
Theorem X9_duration_field_is_not_negative :
  forall (a : Annotation) (sink : list string) (i : nat)
         (segment : Segment.t) (track : Z) (label : string),
    nth_error (segment_list a) i = Some (segment, track, label) ->
    exists lines d,
      Ann.to_rttm (mkWorld a sink) = (tt, mkWorld a (sink ++ lines))
      /\ nth_error lines i
         = Some ("SPEAKER " ++ Ann.str_optional (uri a) ++ " 1 "
                   ++ format_3f (Segment.start segment) ++ " " ++ d
                   ++ " <NA> <NA> " ++ label ++ " <NA>" ++ nl)%string
      /\ mem "-" d = false /\ d <> "nan".
Proof.
  intros a sink i segment track label Hi.
  rewrite to_rttm_run. cbn [self file].
  eexists. exists (format_3f (Segment.duration segment)).
  split; [reflexivity|]. split.
  - rewrite nth_error_map, Hi. reflexivity.
  - apply duration_text.
Qed.

Lemma X9_duration_field_is_not_negative_witness :
  let a := mkAnnotation [(Segment.Segment float_2 float_1, 1, "spk1")] None None in
  exists lines d,
    Ann.to_rttm (mkWorld a []) = (tt, mkWorld a ([] ++ lines))
    /\ nth_error lines 0
       = Some ("SPEAKER " ++ "None" ++ " 1 " ++ format_3f float_2 ++ " " ++ d
                 ++ " <NA> <NA> " ++ "spk1" ++ " <NA>" ++ nl)%string
    /\ mem "-" d = false /\ d <> "nan".
Proof.
  exact (X9_duration_field_is_not_negative
           (mkAnnotation [(Segment.Segment float_2 float_1, 1, "spk1")] None None)
           [] 0%nat (Segment.Segment float_2 float_1) 1 "spk1" eq_refl).
Defined.

(** ** Line terminators *)

Section Terminators.

Lemma universal_newlines_crlf (body rest : string) :
  mem CR body = false ->
  Ann.universal_newlines (body ++ String CR (String LF rest))
  = (body ++ String LF (Ann.universal_newlines rest))%string.
Proof.
  induction body as [|c body IH]; cbn.
  - reflexivity.
  - intros H. apply orb_false_elim in H. destruct H as [Hc Hb].
    rewrite Hc. cbn in IH. now rewrite (IH Hb).
Qed.

Lemma universal_newlines_crlf_lines (bodies : list string) :
  Forall (fun b => one_line b = true) bodies ->
  Ann.universal_newlines (join (map (fun b => b ++ String CR nl)%string bodies))
  = join (map (fun b => b ++ nl)%string bodies).
Proof.
  induction 1 as [|b bs Hb F IH]; [reflexivity|].
  cbn [map]. rewrite !join_cons, append_assoc.
  destruct (one_line_facts b Hb) as (_ & Hcr).
  change (String CR nl ++ join (map (fun b0 : string => b0 ++ String CR nl) bs))%string
    with (String CR (String LF (join (map (fun b0 => b0 ++ String CR nl)%string bs)))).
  rewrite universal_newlines_crlf by assumption.
  now rewrite IH, append_assoc.
Qed.

Lemma mem_cr_terminated (bodies : list string) :
  Forall (fun b => one_line b = true) bodies ->
  mem CR (join (map (fun b => b ++ nl)%string bodies)) = false.
Proof.
  induction 1 as [|b bs Hb F IH]; [reflexivity|].
  cbn [map]. rewrite join_cons, !mem_app, IH.
  destruct (one_line_facts b Hb) as (_ & ->). reflexivity.
Qed.

Lemma readlines_unterminated (s : string) :
  mem LF s = false -> s <> EmptyString -> Ann.readlines s = [s].
Proof.
  induction s as [|c s IH]; [congruence|]. cbn.
  intros H _. apply orb_false_elim in H. destruct H as [Hc Hs].
  rewrite Hc. destruct s as [|d s]; [reflexivity|].
  now rewrite IH.
Qed.

Lemma readlines_terminated_then (bodies : list string) (rest : string) :
  Forall (fun b => one_line b = true) bodies ->
  Ann.readlines (join (map (fun b => b ++ nl)%string bodies) ++ rest)
  = map (fun b => b ++ nl)%string bodies ++ Ann.readlines rest.
Proof.
  induction 1 as [|b bs Hb F IH]; [reflexivity|].
  cbn [map app]. rewrite join_cons, !append_assoc.
  destruct (one_line_facts b Hb) as (Hlf & _).
  now rewrite readlines_first_line, IH.
Qed.

Lemma audacity_record_rstrip (l l' : string) :
  rstrip l = rstrip l' -> Ann.audacity_record l = Ann.audacity_record l'.
Proof. unfold Ann.audacity_record. now intros ->. Qed.

Lemma rttm_record_rstrip (l l' : string) :
  rstrip l = rstrip l' -> Ann.rttm_record l = Ann.rttm_record l'.
Proof. unfold Ann.rttm_record. now intros ->. Qed.

Lemma append_records_ext (parse : string -> result record)
    (ls ls' : list string) (acc : list record) :
  Forall2 (fun l l' => parse l = parse l') ls ls' ->
  Ann.append_records parse ls acc = Ann.append_records parse ls' acc.
Proof.
  intros F. revert acc. induction F as [|l l' ls ls' E F IH]; intros acc; cbn.
  - reflexivity.
  - rewrite E. destruct (parse l'); cbn [result_bind]; [apply IH|reflexivity].
Qed.

End Terminators.

(** X10.  [from_audacity] gives the same result on a file whose lines
    end in carriage return and newline as on the file with the same
    lines ended by a newline alone. *)
Theorem X10_crlf_file_reads_the_same :
  forall (fs fs' : filesystem) (audacity_file audacity_file' : string)
         (bodies : list string) (u m : option string),
    Forall (fun b => one_line b = true) bodies ->
    fs audacity_file = Some (join (map (fun b => b ++ String CR nl)%string bodies)) ->
    fs' audacity_file' = Some (join (map (fun b => b ++ nl)%string bodies)) ->
    Ann.from_audacity fs audacity_file u m = Ann.from_audacity fs' audacity_file' u m.
Proof.
  intros fs fs' audacity_file audacity_file' bodies u m F Hfs Hfs'.
  unfold Ann.from_audacity, Ann.open_lines. rewrite Hfs, Hfs'.
  rewrite universal_newlines_crlf_lines by assumption.
  now rewrite (universal_newlines_without_cr _ (mem_cr_terminated bodies F)).
Qed.

Lemma X10_crlf_file_reads_the_same_witness :
  Ann.from_audacity
    (fun _ => Some (join (map (fun b => b ++ String CR nl)%string
                            [("1.000" ++ tab ++ "2.000" ++ tab ++ "spkA")%string])))
    "windows.txt" None None
  = Ann.from_audacity
      (fun _ => Some (join (map (fun b => b ++ nl)%string
                              [("1.000" ++ tab ++ "2.000" ++ tab ++ "spkA")%string])))
      "unix.txt" None None.
Proof.
  apply (X10_crlf_file_reads_the_same (fun _ => Some _) (fun _ => Some _)
           "windows.txt" "unix.txt"
           [("1.000" ++ tab ++ "2.000" ++ tab ++ "spkA")%string] None None);
    [|reflexivity|reflexivity].
  constructor; [reflexivity|constructor].
Defined.

(** X11.  [from_audacity] gives the same result whether or not the last
    line of the file is ended by a newline. *)
Theorem X11_last_newline_is_optional :
  forall (fs fs' : filesystem) (audacity_file audacity_file' : string)
         (bodies : list string) (last : string) (u m : option string),
    Forall (fun b => one_line b = true) bodies ->
    one_line last = true -> last <> EmptyString ->
    fs audacity_file
      = Some (join (map (fun b => b ++ nl)%string bodies) ++ last)%string ->
    fs' audacity_file'
      = Some (join (map (fun b => b ++ nl)%string bodies) ++ last ++ nl)%string ->
    Ann.from_audacity fs audacity_file u m = Ann.from_audacity fs' audacity_file' u m.
Proof.
  intros fs fs' audacity_file audacity_file' bodies last u m F Hl Hne Hfs Hfs'.
  destruct (one_line_facts last Hl) as (Llf & Lcr).
  unfold Ann.from_audacity, Ann.open_lines. rewrite Hfs, Hfs'.
  rewrite !universal_newlines_without_cr
    by (rewrite !mem_app, (mem_cr_terminated bodies F), ?Lcr; reflexivity).
  rewrite !readlines_terminated_then by assumption.
  rewrite (readlines_unterminated last Llf Hne).
  replace (last ++ nl)%string with (last ++ nl ++ "")%string by reflexivity.
  rewrite (readlines_first_line last "" Llf). cbn [Ann.readlines result_bind].
  rewrite (append_records_ext Ann.audacity_record
             (map (fun b => b ++ nl)%string bodies ++ [last])
             (map (fun b => b ++ nl)%string bodies ++ [(last ++ nl)%string])).
  - reflexivity.
  - apply Forall2_app.
    + clear. induction bodies; constructor; auto.
    + constructor; [|constructor]. apply audacity_record_rstrip.
      symmetry. now apply rstrip_app_space.
Qed.

Lemma X11_last_newline_is_optional_witness :
  Ann.from_audacity
    (fun _ => Some (join (map (fun b => b ++ nl)%string
                            [("1.000" ++ tab ++ "2.000" ++ tab ++ "spkA")%string])
                      ++ "3.000" ++ tab ++ "4.000" ++ tab ++ "spkB")%string)
    "a.txt" None None
  = Ann.from_audacity
      (fun _ => Some (join (map (fun b => b ++ nl)%string
                              [("1.000" ++ tab ++ "2.000" ++ tab ++ "spkA")%string])
                        ++ ("3.000" ++ tab ++ "4.000" ++ tab ++ "spkB") ++ nl)%string)
      "b.txt" None None.
Proof.
  apply (X11_last_newline_is_optional (fun _ => Some _) (fun _ => Some _)
           "a.txt" "b.txt" [("1.000" ++ tab ++ "2.000" ++ tab ++ "spkA")%string]
           ("3.000" ++ tab ++ "4.000" ++ tab ++ "spkB")%string None None);
    [|reflexivity|discriminate|reflexivity|reflexivity].
  constructor; [reflexivity|constructor].
Defined.

(** ** The conversion script *)

Section ScriptFacts.



Lemma join_app (xs ys : list string) :
  join (xs ++ ys) = (join xs ++ join ys)%string.
Proof.
  induction xs as [|x xs IH]; [reflexivity|].
  cbn [app]. now rewrite !join_cons, IH, append_assoc.
Qed.

End ScriptFacts.



(** X13.  The script fails exactly when the marker-timeline file cannot
    be opened, or one of its lines does not have exactly 3 fields with a
    readable start and end, or the RTTM file cannot be written; when it
    fails it leaves every file as it was: a reading error never creates
    or empties the RTTM file. *)
Theorem X13_script_failure_leaves_files :
  forall (writable : string -> bool) (fs : filesystem),
    ((exists e, snd (Script.main writable fs) = Raise e)
     <-> (fs Script.audacity_file_path = None
          \/ (exists text, fs Script.audacity_file_path = Some text
                           /\ Exists (fun l => audacity_line_ok l = false)
                                     (lines_of text))
          \/ writable Script.rttm_file_path = false))
    /\ match snd (Script.main writable fs) with
       | Raise _ => fst (Script.main writable fs) = fs
       | Ok _ => True
       end.
Proof.
  intros writable fs. unfold Script.main, Ann.from_audacity, Ann.open_lines.
  destruct (fs Script.audacity_file_path) as [text|] eqn:Hfs; cbn [result_bind].
  2: { split; [|reflexivity]. split; [auto|]. intros _. now exists OSError. }
  fold (lines_of text).
  pose proof (append_records_spec Ann.audacity_record audacity_line_ok
                audacity_record_ok audacity_record_raise (lines_of text) []) as H.
  destruct (Ann.append_records Ann.audacity_record (lines_of text) []) as [rs|e];
    cbn [result_bind].
  - destruct H as (Fok & _).
    destruct (writable Script.rttm_file_path) eqn:Hw; cbn [fst snd].
    + split; [|exact I]. split.
      * intros (e & E). discriminate E.
      * intros [E|[(t & E & X)|E]]; try discriminate E.
        injection E as <-. exfalso. exact (Forall_not_Exists _ _ Fok X).
    + split; [|reflexivity]. split; [auto|]. intros _. now exists OSError.
  - destruct H as (_ & X). cbn [fst snd]. split; [|reflexivity].
    split; [|intros _; now exists e].
    intros _. right. left. now exists text.
Qed.

Lemma X13_script_failure_leaves_files_witness :
  fst (Script.main (fun _ => true) (fun _ => Some two_field_text))
  = (fun _ => Some two_field_text).
Proof.
  pose proof (proj2 (X13_script_failure_leaves_files
                       (fun _ => true) (fun _ => Some two_field_text))) as H.
  exact H.
Defined.

(** X14.  Writing is additive: [to_rttm] and [write_audacity] for the
    records [r1 ++ r2] leave the file as writing [r1] and then [r2] does,
    and [to_audacity] for [r1 ++ r2] is its text for [r1] followed by its
    text for [r2]. *)
Theorem X14_serializers_are_additive :
  forall (r1 r2 : list record) (u m : option string) (sink : list string),
    file (exec Ann.to_rttm (mkWorld (mkAnnotation (r1 ++ r2) u m) sink))
    = file (exec Ann.to_rttm
              (mkWorld (mkAnnotation r2 u m)
                 (file (exec Ann.to_rttm (mkWorld (mkAnnotation r1 u m) sink)))))
    /\ file (exec Ann.write_audacity (mkWorld (mkAnnotation (r1 ++ r2) u m) sink))
       = file (exec Ann.write_audacity
                 (mkWorld (mkAnnotation r2 u m)
                    (file (exec Ann.write_audacity (mkWorld (mkAnnotation r1 u m) sink)))))
    /\ eval Ann.to_audacity (mkWorld (mkAnnotation (r1 ++ r2) u m) sink)
       = (eval Ann.to_audacity (mkWorld (mkAnnotation r1 u m) sink)
            ++ eval Ann.to_audacity (mkWorld (mkAnnotation r2 u m) sink))%string.
Proof.
  intros r1 r2 u m sink. unfold exec, eval.
  rewrite !to_rttm_run, !write_audacity_run, !to_audacity_run.
  cbn [fst snd file self segment_list uri].
  rewrite !map_app, !app_assoc, join_app. auto.
Qed.

(** X15.  A file with a blank line (a line holding only whitespace, such
    as an empty last line) is rejected by both readers: [from_audacity]
    raises [ValueError] on it and [from_rttm] raises a parse error on its
    lines. *)
Theorem X15_blank_line_is_rejected :
  forall (fs : filesystem) (path text : string) (u m : option string),
    fs path = Some text ->
    Exists (fun l => rstrip l = EmptyString) (lines_of text) ->
    Ann.from_audacity fs path u m = Raise ValueError
    /\ raises_parse_error (Ann.from_rttm (lines_of text) u m).
Proof.
  intros fs path text u m Hfs X.
  assert (Xa : Exists (fun l => audacity_line_ok l = false) (lines_of text)).
  { eapply Exists_impl; [|exact X]. intros l Hl.
    unfold audacity_line_ok, audacity_fields. now rewrite Hl. }
  assert (Xr : Exists (fun l => rttm_line_ok l = false) (lines_of text)).
  { eapply Exists_impl; [|exact X]. intros l Hl.
    unfold rttm_line_ok, rttm_tokens. now rewrite Hl. }
  split.
  - unfold Ann.from_audacity, Ann.open_lines. rewrite Hfs. cbn [result_bind].
    fold (lines_of text).
    pose proof (append_records_spec Ann.audacity_record audacity_line_ok
                  audacity_record_ok audacity_record_raise (lines_of text) []) as H.
    destruct (Ann.append_records Ann.audacity_record (lines_of text) []) as [rs|e] eqn:E.
    + exfalso. exact (Forall_not_Exists _ _ (proj1 H) Xa).
    + cbn [result_bind].
      destruct (append_records_raise_from _ _ _ _ E) as (line & _ & Hl).
      now rewrite (audacity_record_only_value_error line e Hl).
  - unfold Ann.from_rttm, raises_parse_error.
    pose proof (append_records_spec Ann.rttm_record rttm_line_ok
                  rttm_record_ok rttm_record_raise (lines_of text) []) as H.
    destruct (Ann.append_records Ann.rttm_record (lines_of text) []) as [rs|e].
    + exfalso. exact (Forall_not_Exists _ _ (proj1 H) Xr).
    + cbn [result_bind]. exists e. split; [reflexivity|apply H].
Qed.

Lemma X15_blank_line_is_rejected_witness :
  Ann.from_audacity (fun _ => Some (scenario_marker_text ++ nl)%string) "labels.txt" None None
  = Raise ValueError
  /\ raises_parse_error
       (Ann.from_rttm (lines_of (scenario_marker_text ++ nl)) None None).
Proof.
  apply (X15_blank_line_is_rejected (fun _ => Some (scenario_marker_text ++ nl)%string)
           "labels.txt" (scenario_marker_text ++ nl) None None eq_refl).
  apply Exists_cons_tl, Exists_cons_hd. reflexivity.
Defined.

(** X16.  [from_rttm] does not look at the whitespace that ends a line:
    two sequences of lines that agree line by line up to trailing
    whitespace (line terminators included) give the same result. *)
Theorem X16_from_rttm_ignores_trailing_whitespace :
  forall (lines lines' : list string) (u m : option string),
    Forall2 (fun l l' => rstrip l = rstrip l') lines lines' ->
    Ann.from_rttm lines u m = Ann.from_rttm lines' u m.
Proof.
  intros lines lines' u m F. unfold Ann.from_rttm.
  rewrite (append_records_ext Ann.rttm_record lines lines'); [reflexivity|].
  eapply Forall2_impl; [|exact F]. intros l l'. apply rttm_record_rstrip.
Qed.

Lemma X16_from_rttm_ignores_trailing_whitespace_witness :
  Ann.from_rttm [scenario_rttm_line] None None
  = Ann.from_rttm [(scenario_rttm_line ++ "  " ++ String CR nl)%string] None None.
Proof.
  apply X16_from_rttm_ignores_trailing_whitespace.
  constructor; [vm_compute; reflexivity|constructor].
Defined.

(** * The marker-timeline round trip *)

(** ** Thousandths, divided by a thousand and multiplied back *)

(** [float] reads the text of [n] thousandths as the quotient [n / 1000]
    rounded to binary64, and [.3f] writes the thousandths of that
    quotient, rounded to an integer.  Below [2^52] thousandths the two
    roundings cancel: the quotient is within one unit in the last place
    of [n / 1000], which is less than half a thousandth. *)

Section Thousandths.

(** [round_half_even_shift] returns the multiple of [2^K] that is
    nearer than half of [2^K]. *)
Lemma round_shift_near (a n K d : Z) :
  0 <= K -> a = n * 2 ^ K + d -> 2 * Z.abs d < 2 ^ K ->
  round_half_even_shift a K = n.
Proof.
  intros HK Ha Hd. unfold round_half_even_shift.
  assert (P : 0 < 2 ^ K) by (apply Z.pow_pos_nonneg; lia).
  destruct (Z_le_gt_dec 0 d) as [Hpos|Hneg].
  - assert (Eq : a / 2 ^ K = n).
    { symmetry. apply (Z.div_unique a (2 ^ K) n d); lia. }
    assert (Er : a mod 2 ^ K = d).
    { symmetry. apply (Z.mod_unique a (2 ^ K) n d); lia. }
    rewrite Eq, Er.
    destruct (Z.compare_spec (2 * d) (2 ^ K)); lia.
  - assert (Eq : a / 2 ^ K = n - 1).
    { symmetry. apply (Z.div_unique a (2 ^ K) (n - 1) (2 ^ K + d)); lia. }
    assert (Er : a mod 2 ^ K = 2 ^ K + d).
    { symmetry. apply (Z.mod_unique a (2 ^ K) (n - 1) (2 ^ K + d)); lia. }
    rewrite Eq, Er.
    destruct (Z.compare_spec (2 * (2 ^ K + d)) (2 ^ K)); lia.
Qed.

(** The number of binary digits of [q] is fixed by the powers of two
    around it. *)
Lemma digits_exact (q : positive) (d : Z) :
  2 ^ (d - 1) <= Zpos q < 2 ^ d -> 0 < d -> Zpos (digits2_pos q) = d.
Proof.
  intros [Hl Hu] Hd.
  pose proof (digits2_pos_bounds q) as [Bl Bu].
  set (k := Zpos (digits2_pos q)) in *.
  assert (0 < k) by (subst k; lia).
  destruct (Z.lt_trichotomy k d) as [H1|[H1|H1]]; [|assumption|].
  - exfalso. assert (2 ^ k <= 2 ^ (d - 1)) by (apply Z.pow_le_mono_r; lia). lia.
  - exfalso. assert (2 ^ d <= 2 ^ (k - 1)) by (apply Z.pow_le_mono_r; lia). lia.
Qed.

(** A 53-bit significand is kept as it is. *)
Lemma shr_fexp_keep (m : positive) (e : Z) (l : location) :
  Zpos (digits2_pos m) = 53 -> -1074 <= e ->
  shr_fexp prec emax (Zpos m) e l = (shr_record_of_loc (Zpos m) l, e).
Proof.
  intros Hd He. unfold shr_fexp, fexp, SpecFloat.emin, prec, emax. cbn [Zdigits2].
  rewrite Hd. replace (Z.max (53 + e - 53) (3 - 1024 - 53) - e) with 0 by lia.
  reflexivity.
Qed.

(** A 54-bit significand loses its last bit. *)
Lemma shr_fexp_one (m : positive) (e : Z) (l : location) :
  Zpos (digits2_pos m) = 54 -> -1075 <= e ->
  shr_fexp prec emax (Zpos m) e l = (shr_1 (shr_record_of_loc (Zpos m) l), e + 1).
Proof.
  intros Hd He. unfold shr_fexp, fexp, SpecFloat.emin, prec, emax. cbn [Zdigits2].
  rewrite Hd. replace (Z.max (54 + e - 53) (3 - 1024 - 53) - e) with 1 by lia.
  reflexivity.
Qed.

Lemma loc_of_record_of_loc (m : Z) (l : location) :
  loc_of_shr_record (shr_record_of_loc m l) = l /\ shr_m (shr_record_of_loc m l) = m.
Proof. destruct l as [|[ | | ]]; split; reflexivity. Qed.

Lemma round_nearest_even_step (m : Z) (l : location) :
  round_nearest_even m l = m \/ round_nearest_even m l = m + 1.
Proof.
  destruct l as [|[ | | ]]; cbn [round_nearest_even]; try destruct (Z.even m); auto.
Qed.

(** First rounding of the quotient [Q] with remainder [R] of a division
    by 1000: the rounded significand, put back on the scale of [Q], is
    within 1 of [Q + R / 1000]. *)
Lemma rounded_quotient (Q E R : Z) :
  2 ^ 52 <= Q < 2 ^ 54 -> 0 <= R < 1000 -> -1074 <= E ->
  exists mrs j,
    shr_fexp prec emax Q E (new_location 1000 R) = (mrs, E + j)
    /\ 0 <= j <= 1
    /\ 2 ^ 52 <= round_nearest_even (shr_m mrs) (loc_of_shr_record mrs) <= 2 ^ 53
    /\ Z.abs (1000 * (round_nearest_even (shr_m mrs) (loc_of_shr_record mrs) * 2 ^ j)
              - (1000 * Q + R)) <= 1000.
Proof.
  intros HQ HR HE.
  destruct Q as [|q|q]; [cbn in HQ; lia | | cbn in HQ; lia].
  destruct (Z_lt_ge_dec (Zpos q) (2 ^ 53)) as [Hlt|Hge].
  - exists (shr_record_of_loc (Zpos q) (new_location 1000 R)), 0.
    rewrite shr_fexp_keep; [|apply digits_exact; [change (53 - 1) with 52|]; lia|lia].
    destruct (loc_of_record_of_loc (Zpos q) (new_location 1000 R)) as [-> ->].
    rewrite Z.add_0_r, Z.pow_0_r.
    split; [reflexivity|]. split; [lia|].
    destruct (round_nearest_even_step (Zpos q) (new_location 1000 R)) as [-> | ->]; lia.
  - exists (shr_1 (shr_record_of_loc (Zpos q) (new_location 1000 R))), 1.
    rewrite shr_fexp_one; [|apply digits_exact; [change (54 - 1) with 53|]; lia|lia].
    split; [reflexivity|]. split; [lia|].
    change (2 ^ 1) with 2.
    unfold new_location. change (Z.even 1000) with true. cbv iota.
    unfold new_location_even.
    change (2 ^ 52) with 4503599627370496 in *.
    change (2 ^ 53) with 9007199254740992 in *.
    destruct (Z.eqb_spec R 0) as [HR0|HR0].
    + destruct q as [q'|q'|]; [| |lia].
      * cbn [shr_record_of_loc shr_1 shr_m loc_of_shr_record orb round_nearest_even].
        destruct (Z.even (Zpos q')) eqn:Ev; lia.
      * cbn [shr_record_of_loc shr_1 shr_m loc_of_shr_record orb round_nearest_even].
        lia.
    + destruct q as [q'|q'|]; [| |lia].
      * destruct (2 * R ?= 1000);
          cbn [shr_record_of_loc shr_1 shr_m loc_of_shr_record orb round_nearest_even];
          lia.
      * destruct (2 * R ?= 1000);
          cbn [shr_record_of_loc shr_1 shr_m loc_of_shr_record orb round_nearest_even];
          lia.
Qed.

(** Second rounding step: a significand that reached [2^53] is halved,
    any other is kept; the value is unchanged. *)
Lemma renormalized (s : bool) (M e : Z) :
  2 ^ 52 <= M <= 2 ^ 53 -> -1074 <= e <= 900 ->
  exists m t,
    (let '(mrs, e') := shr_fexp prec emax M e loc_Exact in
     match shr_m mrs with
     | Z0 => S754_zero s
     | Zpos m => if e' <=? emax - prec then S754_finite s m e' else S754_infinity s
     | Zneg _ => S754_nan
     end) = S754_finite s m (e + t)
    /\ 0 <= t <= 1 /\ Zpos m * 2 ^ t = M.
Proof.
  intros HM He.
  destruct M as [|q|q]; [cbn in HM; lia | | cbn in HM; lia].
  destruct (Z_lt_ge_dec (Zpos q) (2 ^ 53)) as [Hlt|Hge].
  - exists q, 0.
    rewrite shr_fexp_keep; [|apply digits_exact; [change (53 - 1) with 52|]; lia|lia].
    cbn [shr_record_of_loc shr_m].
    rewrite Z.add_0_r, Z.pow_0_r.
    replace (e <=? emax - prec) with true
      by (symmetry; apply Z.leb_le; unfold emax, prec; lia).
    split; [reflexivity|]. lia.
  - assert (Eq : Zpos q = 2 ^ 53) by lia.
    rewrite Eq. exists 4503599627370496%positive, 1.
    rewrite <- Eq at 1.
    rewrite shr_fexp_one; [|apply digits_exact; [change (54 - 1) with 53|]; lia|lia].
    assert (Eq' : q = 9007199254740992%positive) by (apply Pos2Z.inj; exact Eq).
    rewrite Eq'.
    cbn [shr_record_of_loc shr_1 shr_m orb].
    replace (e + 1 <=? emax - prec) with true
      by (symmetry; apply Z.leb_le; unfold emax, prec; lia).
    split; [reflexivity|]. split; [lia|reflexivity].
Qed.

(** [binary_round_aux] on the quotient [Q] and remainder [R] of a
    division by 1000 gives a finite float whose significand, on the
    scale of [Q], is within 1 of [Q + R / 1000]. *)
Lemma binary_round_aux_quotient (s : bool) (Q E R : Z) :
  2 ^ 52 <= Q < 2 ^ 54 -> 0 <= R < 1000 -> -1074 <= E <= 800 ->
  exists m t,
    binary_round_aux prec emax s Q E (new_location 1000 R) = S754_finite s m (E + t)
    /\ 0 <= t <= 2
    /\ Z.abs (1000 * (Zpos m * 2 ^ t) - (1000 * Q + R)) <= 1000.
Proof.
  intros HQ HR HE.
  destruct (rounded_quotient Q E R HQ HR) as (mrs & j & E1 & Hj & HM & Hd); [lia|].
  destruct (renormalized s _ (E + j) HM) as (m & t & E2 & Ht & Hm); [lia|].
  exists m, (j + t).
  unfold binary_round_aux. rewrite E1.
  split; [rewrite Z.add_assoc; exact E2|].
  split; [lia|].
  rewrite Z.pow_add_r by lia.
  replace (Zpos m * (2 ^ j * 2 ^ t)) with (Zpos m * 2 ^ t * 2 ^ j) by ring.
  rewrite Hm. exact Hd.
Qed.

(** The integer division [SFdiv] performs for [p / 1000]: [p] is
    shifted to 63 bits first. *)
Lemma div_core_thousand (p : positive) :
  Zpos (digits2_pos p) <= 52 ->
  SFdiv_core_binary prec emax (Zpos p) 0 1000 0
  = ((Zpos p * 2 ^ (63 - Zpos (digits2_pos p))) / 1000,
     Zpos (digits2_pos p) - 63,
     new_location 1000 ((Zpos p * 2 ^ (63 - Zpos (digits2_pos p))) mod 1000)).
Proof.
  intros Hd. unfold SFdiv_core_binary.
  cbn [Zdigits2]. change (Zpos (digits2_pos 1000)) with 10.
  set (d := Zpos (digits2_pos p)) in *.
  assert (0 < d) by (subst d; lia).
  replace (Z.min (fexp prec emax (d + 0 - (10 + 0))) (0 - 0)) with (d - 63)
    by (unfold fexp, SpecFloat.emin, prec, emax; lia).
  replace (0 - 0 - (d - 63)) with (63 - d) by lia.
  destruct (63 - d) as [|k|k] eqn:Ek; [lia| |lia].
  rewrite Z.shiftl_mul_pow2 by lia.
  unfold Z.div, Z.modulo.
  destruct (Z.div_eucl (Zpos p * 2 ^ Zpos k) 1000) as [q r]. reflexivity.
Qed.

(** Fewer than [2^52] thousandths, read as a float, are written as the
    same number of thousandths. *)
Lemma of_decimal_thousandths (s : bool) (p : positive) :
  Zpos p < 2 ^ 52 ->
  exists m e,
    of_decimal s (Zpos p) (-3) = S754_finite s m e /\ thousandths m e = Zpos p.
Proof.
  intros Hp.
  pose proof (digits2_pos_bounds p) as [Bl Bu].
  set (d := Zpos (digits2_pos p)) in *.
  assert (Hd0 : 0 < d) by (subst d; lia).
  assert (Hd : d <= 52).
  { destruct (Z_le_gt_dec d 52) as [H|H]; [exact H|exfalso].
    assert (2 ^ 52 <= 2 ^ (d - 1)) by (apply Z.pow_le_mono_r; lia). lia. }
  set (k := 63 - d).
  set (X := Zpos p * 2 ^ k).
  assert (Pk : 0 < 2 ^ k) by (apply Z.pow_pos_nonneg; lia).
  assert (HX : 2 ^ 62 <= X < 2 ^ 63).
  { replace 62 with ((d - 1) + k) by (subst k; lia).
    replace 63 with (d + k) by (subst k; lia).
    rewrite !Z.pow_add_r by (subst k; lia). subst X. nia. }
  pose proof (Z.div_mod X 1000 ltac:(lia)) as HXdm.
  pose proof (Z.mod_pos_bound X 1000 ltac:(lia)) as HR.
  change (2 ^ 62) with 4611686018427387904 in HX.
  change (2 ^ 63) with 9223372036854775808 in HX.
  destruct (binary_round_aux_quotient s (X / 1000) (d - 63) (X mod 1000))
    as (m & t & Er & Ht & Hm);
    [change (2 ^ 52) with 4503599627370496;
     change (2 ^ 54) with 18014398509481984; lia | exact HR | lia | ].
  exists m, (d - 63 + t). split.
  - change (of_decimal s (Zpos p) (-3))
      with (SFdiv prec emax (S754_finite s p 0) (S754_finite false 1000 0)).
    unfold SFdiv. fold d in Hd. unfold d at 1 in Hd.
    rewrite div_core_thousand by exact Hd.
    fold d. fold k. fold X. rewrite xorb_false_r. exact Er.
  - unfold thousandths.
    replace (0 <=? d - 63 + t) with false by (symmetry; apply Z.leb_gt; lia).
    rewrite <- HXdm in Hm.
    apply (round_shift_near _ _ _ (1000 * Zpos m - Zpos p * 2 ^ (- (d - 63 + t))));
      [lia | ring | ].
    assert (Ek : k = - (d - 63 + t) + t) by (subst k; lia).
    set (K := - (d - 63 + t)) in *.
    assert (PK : 0 < 2 ^ K) by (apply Z.pow_pos_nonneg; subst K; lia).
    assert (E2k : 2 ^ k = 2 ^ K * 2 ^ t) by (rewrite Ek; apply Z.pow_add_r; subst K; lia).
    assert (L : 2048 <= 2 ^ k).
    { change 2048 with (2 ^ 11). apply Z.pow_le_mono_r; subst k; lia. }
    subst X. rewrite E2k in Hm, L.
    assert (Ct : t = 0 \/ t = 1 \/ t = 2) by lia.
    destruct Ct as [-> | [-> | ->]];
      [change (2 ^ 0) with 1 in * | change (2 ^ 1) with 2 in * | change (2 ^ 2) with 4 in *];
      lia.
Qed.

End Thousandths.

(** ** Canonical fixed-point fields *)

Section CanonicalText.

Lemma split_not_nil (sep : ascii) (s : string) : split sep s <> [].
Proof.
  destruct s as [|c r]; cbn; [discriminate|].
  destruct (Ascii.eqb c sep); [discriminate|]. destruct (split sep r); discriminate.
Qed.

Lemma split_one (sep : ascii) (s b : string) : split sep s = [b] -> s = b.
Proof.
  revert b. induction s as [|c r IH]; intros b; cbn.
  - congruence.
  - destruct (Ascii.eqb c sep).
    + intros H. injection H as _ H. now apply split_not_nil in H.
    + destruct (split sep r) as [|f fs] eqn:E; [now apply split_not_nil in E|].
      intros H. injection H as <- ->. now rewrite (IH f eq_refl).
Qed.

Lemma split_two (sep : ascii) (s a b : string) :
  split sep s = [a; b] -> s = (a ++ String sep b)%string.
Proof.
  revert a. induction s as [|c r IH]; intros a; cbn.
  - discriminate.
  - destruct (Ascii.eqb_spec c sep) as [->|Hc].
    + intros H. injection H as <- H. cbn. now rewrite (split_one _ _ _ H).
    + destruct (split sep r) as [|f fs] eqn:E; [discriminate|].
      intros H. injection H as <- ->. cbn. now rewrite (IH f eq_refl).
Qed.

Lemma string_unsnoc (c : ascii) (s : string) :
  exists s' c', String c s = (s' ++ String c' "")%string /\ String.length s' = String.length s.
Proof.
  revert c. induction s as [|a s IH]; intros c.
  - now exists "", c.
  - destruct (IH a) as (s' & c' & E & L).
    exists (String c s'), c'. cbn. now rewrite E, L.
Qed.

Lemma string_snoc_ind (P : string -> Prop) :
  P "" -> (forall s c, P s -> P (s ++ String c "")%string) -> forall s, P s.
Proof.
  intros H0 HS s.
  remember (String.length s) as n eqn:En. revert s En.
  induction n as [|n IH]; intros s En.
  - destruct s; [exact H0|discriminate].
  - destruct s as [|c s]; [discriminate|].
    destruct (string_unsnoc c s) as (s' & c' & -> & L).
    apply HS, IH. cbn in En. lia.
Qed.

Lemma digit_char_digit_val (c : ascii) :
  is_digit c = true -> digit_char (digit_val c) = c.
Proof.
  destruct c as [[] [] [] [] [] [] [] []]; intros H;
    try discriminate H; reflexivity.
Qed.

Lemma digits_number_cons (c : ascii) (s : string) :
  digits_number (String c s)
  = digit_val c * 10 ^ Z.of_nat (String.length s) + digits_number s.
Proof.
  unfold digits_number. cbn [digit_vals]. unfold digits_value at 1. cbn [fold_left].
  rewrite fold_digits, length_digit_vals. lia.
Qed.

Lemma digits_number_snoc (s : string) (c : ascii) :
  digits_number (s ++ String c "")%string = 10 * digits_number s + digit_val c.
Proof.
  unfold digits_number. rewrite digit_vals_app, digits_value_app.
  cbn [digit_vals List.length]. unfold digits_value at 2. cbn [fold_left].
  change (10 ^ Z.of_nat 1) with 10. lia.
Qed.

Lemma digits_number_bounds (s : string) :
  str_forall is_digit s = true ->
  0 <= digits_number s < 10 ^ Z.of_nat (String.length s).
Proof.
  induction s as [|c s IH]; intros H.
  - cbn. lia.
  - cbn in H. apply andb_prop in H. destruct H as [Hc Hs].
    destruct (is_digit_facts c Hc) as (_ & _ & _ & _ & Hv).
    specialize (IH Hs). rewrite digits_number_cons.
    cbn [String.length]. rewrite Nat2Z.inj_succ, Z.pow_succ_r by lia. nia.
Qed.

Lemma digits_number_lower (c : ascii) (s : string) :
  str_forall is_digit (String c s) = true -> Ascii.eqb c "0" = false ->
  10 ^ Z.of_nat (String.length s) <= digits_number (String c s).
Proof.
  intros H Hz. cbn in H. apply andb_prop in H. destruct H as [Hc Hs].
  pose proof (digits_number_bounds s Hs) as B.
  rewrite digits_number_cons.
  assert (1 <= digit_val c).
  { revert Hc Hz. destruct c as [[] [] [] [] [] [] [] []]; intros Hc Hz;
      try discriminate Hc; try discriminate Hz; vm_compute; congruence. }
  nia.
Qed.

Lemma length_snoc (s : string) (c : ascii) :
  String.length (s ++ String c "")%string = S (String.length s).
Proof. induction s as [|x s IH]; cbn; [reflexivity|now rewrite IH]. Qed.

Lemma leading_zero_snoc (x c : ascii) (r : string) :
  leading_zero (String x (r ++ String c ""))%string = Ascii.eqb x "0".
Proof. destruct r; reflexivity. Qed.

Lemma leading_zero_head (x : ascii) (r : string) :
  Ascii.eqb x "0" = false -> leading_zero (String x r) = false.
Proof. intros H. destruct r; cbn; [reflexivity|exact H]. Qed.

Lemma str_forall_snoc (p : ascii -> bool) (s : string) (c : ascii) :
  str_forall p (s ++ String c "")%string = true ->
  str_forall p s = true /\ p c = true.
Proof.
  rewrite str_forall_app. cbn. intros H. apply andb_prop in H.
  destruct H as [Hs Hc]. rewrite andb_true_r in Hc. now split.
Qed.

(** Printing the number a digit string stands for gives the string
    back, when it has no superfluous leading zero. *)
Lemma digits_fuel_of_digits (s : string) :
  s <> "" -> str_forall is_digit s = true -> leading_zero s = false ->
  forall (fuel : nat) (acc : string),
    (String.length s <= S fuel)%nat ->
    digits_fuel (S fuel) (digits_number s) acc = (s ++ acc)%string.
Proof.
  induction s as [|s c IH] using string_snoc_ind; [congruence|].
  intros _ Hd Hz fuel acc Hf.
  apply str_forall_snoc in Hd. destruct Hd as [Hs Hc].
  destruct (is_digit_facts c Hc) as (_ & _ & _ & _ & Hv).
  rewrite digits_number_snoc, digits_fuel_step.
  destruct s as [|x r].
  - change (digits_number "") with 0. rewrite Z.mul_0_r, Z.add_0_l.
    replace (digit_val c <? 10) with true by (symmetry; apply Z.ltb_lt; lia).
    rewrite Z.mod_small by lia. now rewrite digit_char_digit_val.
  - change (String x r ++ String c "")%string with (String x (r ++ String c ""))%string in Hz, Hf.
    rewrite leading_zero_snoc in Hz.
    pose proof (digits_number_lower x r Hs Hz) as Hl.
    assert (P : 0 < 10 ^ Z.of_nat (String.length r))
      by (apply Z.pow_pos_nonneg; lia).
    replace (10 * digits_number (String x r) + digit_val c <? 10) with false
      by (symmetry; apply Z.ltb_ge; lia).
    replace ((10 * digits_number (String x r) + digit_val c) / 10)
      with (digits_number (String x r))
      by (apply (Z.div_unique _ 10 _ (digit_val c)); lia).
    replace ((10 * digits_number (String x r) + digit_val c) mod 10)
      with (digit_val c)
      by (apply (Z.mod_unique _ 10 (digits_number (String x r))); lia).
    rewrite digit_char_digit_val by assumption.
    cbn [String.length] in Hf. rewrite length_snoc in Hf.
    destruct fuel as [|fuel]; [lia|].
    rewrite IH; [|discriminate|assumption|now apply leading_zero_head|cbn; lia].
    rewrite append_assoc. reflexivity.
Qed.


Lemma decimal_of_digits (s : string) :
  s <> "" -> str_forall is_digit s = true -> leading_zero s = false ->
  decimal (digits_number s) = s.
Proof.
  intros Hn Hd Hz. unfold decimal.
  rewrite digits_fuel_of_digits; [apply append_nil_r|assumption..|].
  destruct s as [|x r]; [congruence|]. destruct r as [|y r]; [cbn; lia|].
  cbn [leading_zero] in Hz.
  pose proof (digits_number_lower x (String y r) Hd Hz) as Hl.
  set (n := digits_number (String x (String y r))) in *.
  set (k := Z.of_nat (String.length (String y r))) in *.
  assert (Hk : 0 <= k) by (subst k; lia).
  assert (H2 : 2 ^ k <= 10 ^ k) by (apply Z.pow_le_mono_l; lia).
  assert (Hp : 0 < 2 ^ k) by (apply Z.pow_pos_nonneg; lia).
  assert (Hlog : k <= Z.log2 n) by (apply Z.log2_le_pow2; lia).
  change (String.length (String x (String y r))) with (S (String.length (String y r))).
  apply le_n_S. apply Nat2Z.inj_le. fold k. rewrite Z2Nat.id by lia. exact Hlog.
Qed.

Lemma three_digits_of_digits (s : string) :
  str_forall is_digit s = true -> String.length s = 3%nat ->
  three_digits (digits_number s) = s /\ 0 <= digits_number s < 1000.
Proof.
  intros Hd Hl.
  destruct s as [|a [|b [|c [|]]]]; try discriminate Hl.
  cbn in Hd.
  apply andb_prop in Hd. destruct Hd as [Ha Hd].
  apply andb_prop in Hd. destruct Hd as [Hb Hd].
  apply andb_prop in Hd. destruct Hd as [Hc _].
  destruct (is_digit_facts a Ha) as (_ & _ & _ & _ & Va).
  destruct (is_digit_facts b Hb) as (_ & _ & _ & _ & Vb).
  destruct (is_digit_facts c Hc) as (_ & _ & _ & _ & Vc).
  assert (E : digits_number (String a (String b (String c "")))
              = 100 * digit_val a + 10 * digit_val b + digit_val c).
  { unfold digits_number, digits_value. cbn [digit_vals fold_left]. lia. }
  rewrite E. split; [|lia].
  unfold three_digits.
  set (n := 100 * digit_val a + 10 * digit_val b + digit_val c).
  assert (E1 : n mod 10 = digit_val c)
    by (symmetry; apply (Z.mod_unique n 10 (10 * digit_val a + digit_val b)); lia).
  assert (E2 : n / 10 = 10 * digit_val a + digit_val b)
    by (symmetry; apply (Z.div_unique n 10 _ (digit_val c)); lia).
  assert (E3 : n / 100 = digit_val a)
    by (symmetry; apply (Z.div_unique n 100 _ (10 * digit_val b + digit_val c)); lia).
  assert (E4 : (10 * digit_val a + digit_val b) mod 10 = digit_val b)
    by (symmetry; apply (Z.mod_unique _ 10 (digit_val a)); lia).
  rewrite E1, E2, E3, E4, (Z.mod_small (digit_val a)) by lia.
  now rewrite !digit_char_digit_val.
Qed.

(** A canonical field is the fixed-point text of a number of
    thousandths below [10^15]. *)
Lemma canonical_3f_fixed3 (field : string) :
  canonical_3f field = true ->
  exists (neg : bool) (n : Z),
    0 <= n < 10 ^ 15 /\ field = ((if neg then "-" else "") ++ fixed3 n)%string.
Proof.
  unfold canonical_3f.
  set (body := match field with
               | String c r => if Ascii.eqb c "-" then r else field
               | EmptyString => field
               end).
  assert (Hb : exists neg : bool, field = ((if neg then "-" else "") ++ body)%string).
  { subst body. destruct field as [|c r]; [now exists false|].
    destruct (Ascii.eqb_spec c "-") as [->|_]; [now exists true|now exists false]. }
  destruct Hb as (neg & Hf).
  destruct (split "." body) as [|ip [|fp [|]]] eqn:Es; try discriminate.
  intros H.
  repeat (apply andb_prop in H; destruct H as [H ?]).
  repeat match goal with
         | K : negb _ = true |- _ => apply negb_true_iff in K
         | K : Nat.leb _ _ = true |- _ => apply Nat.leb_le in K
         | K : Nat.eqb _ _ = true |- _ => apply Nat.eqb_eq in K
         end.
  apply split_two in Es.
  destruct (three_digits_of_digits fp) as (E3 & B3); [assumption..|].
  pose proof (digits_number_bounds ip H) as Bi.
  assert (Hne : ip <> "") by (destruct ip; [cbn in *; lia|discriminate]).
  assert (Bi' : digits_number ip < 10 ^ 12).
  { eapply Z.lt_le_trans; [apply Bi|]. apply Z.pow_le_mono_r; lia. }
  exists neg, (digits_number ip * 1000 + digits_number fp).
  change (10 ^ 12) with 1000000000000 in Bi'.
  change (10 ^ 15) with 1000000000000000.
  split; [lia|].
  unfold fixed3.
  replace ((digits_number ip * 1000 + digits_number fp) / 1000) with (digits_number ip)
    by (apply (Z.div_unique _ 1000 _ (digits_number fp)); lia).
  replace ((digits_number ip * 1000 + digits_number fp) mod 1000) with (digits_number fp)
    by (apply (Z.mod_unique _ 1000 (digits_number ip)); lia).
  rewrite decimal_of_digits, E3 by assumption.
  rewrite Hf, Es. reflexivity.
Qed.

(** The fixed-point text of fewer than [2^52] thousandths reads as a
    float that is written as the same text. *)
Lemma fixed3_formatted (neg : bool) (n : Z) :
  0 <= n < 2 ^ 52 ->
  formatted_3f ((if neg then "-" else "") ++ fixed3 n)%string = true.
Proof.
  intros Hn. destruct n as [|p|p]; [destruct neg; vm_compute; reflexivity| |lia].
  destruct (of_decimal_thousandths neg p) as (m & e & Ed & Et); [lia|].
  pose proof (float_of_string_format_3f (S754_finite neg m e)) as R.
  cbn [format_3f read_back] in R. rewrite Et, Ed in R.
  unfold formatted_3f. rewrite R. cbn [format_3f]. rewrite Et.
  apply String.eqb_refl.
Qed.

Lemma canonical_3f_formatted (field : string) :
  canonical_3f field = true -> formatted_3f field = true.
Proof.
  intros H. destruct (canonical_3f_fixed3 field H) as (neg & n & Hn & ->).
  apply fixed3_formatted.
  change (10 ^ 15) with 1000000000000000 in Hn.
  change (2 ^ 52) with 4503599627370496. lia.
Qed.

Lemma row_canonical_ok (r : row) : row_canonical r = true -> row_ok r = true.
Proof.
  destruct r as [[start end_] label]. unfold row_canonical, row_ok. intros H.
  apply andb_prop in H. destruct H as [H Hl].
  apply andb_prop in H. destruct H as [Hs He].
  now rewrite (canonical_3f_formatted _ Hs), (canonical_3f_formatted _ He), Hl.
Qed.

End CanonicalText.

(** ** C5: the round trip *)

(** C5, as the code has it.  Take a marker-timeline text made of lines
    [<start><tab><end><tab><label>] each ended by a newline, whose start
    and end fields are canonical fixed-point texts (an optional minus
    sign, an integer part of 1 to 12 digits with no leading zero other
    than the single digit 0, a point and exactly three digits) and whose
    labels are not empty, hold no tab or line break and do not end in
    whitespace.  Reading it with [from_audacity] succeeds, gives one
    record per line with track 1, and [to_audacity] on the result
    returns the original text, character for character.  In particular
    the text [1.000<tab>2.000<tab>spkA<newline>] reads as one record
    with track 1, segment (1, 2) and label ["spkA"], and [to_audacity]
    returns that same text. *)
Theorem C5_audacity_round_trip :
  (forall (fs : filesystem) (audacity_file : string) (rows : list row)
          (u m : option string) (sink : list string),
      Forall (fun r => row_canonical r = true) rows ->
      fs audacity_file = Some (join (map marker_line rows)) ->
      exists a,
        Ann.from_audacity fs audacity_file u m = Ok a
        /\ Forall2 (fun (r : row) (rec : record) =>
                      let '(start, end_, label) := r in
                      exists x y,
                        float_of_string start = Some x /\ float_of_string end_ = Some y
                        /\ rec = (Segment.Segment x y, 1, label))
                   rows (segment_list a)
        /\ eval Ann.to_audacity (mkWorld a sink) = join (map marker_line rows))
  /\ (forall (u m : option string) (sink : list string),
        let a := mkAnnotation [(Segment.Segment float_1 float_2, 1, "spkA")] u m in
        Ann.from_audacity (fun _ => Some scenario_marker_text) "labels.txt" u m = Ok a
        /\ to_Q float_1 = Some (1 # 1)%Q /\ to_Q float_2 = Some (2 # 1)%Q
        /\ eval Ann.to_audacity (mkWorld a sink) = scenario_marker_text).
Proof.
  split.
  - intros fs audacity_file rows u m sink Fc Hfs.
    assert (F : Forall (fun r => row_ok r = true) rows).
    { eapply Forall_impl; [|exact Fc]. intros r. apply row_canonical_ok. }
    destruct (marker_text_lines rows F) as (Hl & Hc).
    destruct (append_records_marker_lines rows [] F) as (rs & E & Hlines & F2).
    unfold Ann.from_audacity, Ann.open_lines. rewrite Hfs.
    rewrite universal_newlines_without_cr by assumption.
    rewrite Hl. cbn [result_bind]. rewrite E. cbn [result_bind app].
    eexists. split; [reflexivity|]. split; [exact F2|].
    unfold eval. rewrite to_audacity_run. cbn. now rewrite Hlines.
  - intros u m sink. cbv zeta. repeat split; vm_compute; reflexivity.
Qed.

Lemma C5_audacity_round_trip_witness :
  let rows := [("1.000", "2.000", "spkA"); ("-0.000", "999999999999.999", "b c")] in
  Forall (fun r => row_canonical r = true) rows
  /\ exists a,
       Ann.from_audacity (fun _ => Some (join (map marker_line rows))) "labels.txt"
         None None = Ok a
       /\ Forall2 (fun (r : row) (rec : record) =>
                     let '(start, end_, label) := r in
                     exists x y,
                       float_of_string start = Some x /\ float_of_string end_ = Some y
                       /\ rec = (Segment.Segment x y, 1, label))
                  rows (segment_list a)
       /\ eval Ann.to_audacity (mkWorld a []) = join (map marker_line rows).
Proof.
  cbv zeta.
  assert (F : Forall (fun r => row_canonical r = true)
                [("1.000", "2.000", "spkA"); ("-0.000", "999999999999.999", "b c")]).
  { constructor; [vm_compute; reflexivity|].
    constructor; [vm_compute; reflexivity|constructor]. }
  split; [exact F|].
  apply (proj1 C5_audacity_round_trip
           (fun _ => Some (join (map marker_line
              [("1.000", "2.000", "spkA"); ("-0.000", "999999999999.999", "b c")])))
           "labels.txt" _ None None [] F eq_refl).
Defined.

(** C5 as stated fails in three ways, each on a text whose start and end
    fields have exactly three decimals and which is read without error.
    A label that ends in a space is written back without the space:
    [1.000<tab>2.000<tab>spkA <newline>] comes back as
    [1.000<tab>2.000<tab>spkA<newline>].  A leading zero is not written
    back: [01.000<tab>2.000<tab>spkA<newline>] comes back as the same
    [1.000<tab>2.000<tab>spkA<newline>].  And with 13 digits before the
    point the binary64 nearest to the field can be nearer to another
    three-decimal number: [9000000000000.001] is written back as
    [9000000000000.002]. *)
Lemma C5_round_trip_counterexample :
  (let text := ("1.000" ++ tab ++ "2.000" ++ tab ++ "spkA " ++ nl)%string in
   canonical_3f "1.000" = true /\ canonical_3f "2.000" = true
   /\ exists a,
        Ann.from_audacity (fun _ => Some text) "labels.txt" None None = Ok a
        /\ eval Ann.to_audacity (mkWorld a []) = scenario_marker_text
        /\ eval Ann.to_audacity (mkWorld a []) <> text)
  /\ (let text := ("01.000" ++ tab ++ "2.000" ++ tab ++ "spkA" ++ nl)%string in
      three_decimals "01.000" = true /\ three_decimals "2.000" = true
      /\ exists a,
           Ann.from_audacity (fun _ => Some text) "labels.txt" None None = Ok a
           /\ eval Ann.to_audacity (mkWorld a []) = scenario_marker_text
           /\ eval Ann.to_audacity (mkWorld a []) <> text)
  /\ (let text := ("9000000000000.001" ++ tab ++ "9000000000001.000" ++ tab
                   ++ "spkA" ++ nl)%string in
      three_decimals "9000000000000.001" = true
      /\ three_decimals "9000000000001.000" = true
      /\ leading_zero "9000000000000" = false
      /\ exists a,
           Ann.from_audacity (fun _ => Some text) "labels.txt" None None = Ok a
           /\ eval Ann.to_audacity (mkWorld a [])
              = ("9000000000000.002" ++ tab ++ "9000000000001.000" ++ tab
                 ++ "spkA" ++ nl)%string
           /\ eval Ann.to_audacity (mkWorld a []) <> text).
Proof.
  cbv zeta. split; [|split].
  - split; [vm_compute; reflexivity|]. split; [vm_compute; reflexivity|].
    eexists. split; [vm_compute; reflexivity|].
    split; [vm_compute; reflexivity|]. vm_compute. discriminate.
  - split; [vm_compute; reflexivity|]. split; [vm_compute; reflexivity|].
    eexists. split; [vm_compute; reflexivity|].
    split; [vm_compute; reflexivity|]. vm_compute. discriminate.
  - split; [vm_compute; reflexivity|]. split; [vm_compute; reflexivity|].
    split; [reflexivity|].
    eexists. split; [vm_compute; reflexivity|].
    split; [vm_compute; reflexivity|]. vm_compute. discriminate.
Qed.
